(** * evalml: the sequential engine and the polynomial decomposer

    A shallow embedding of

      - [evalml/automl/engine/sequential_engine.py]
        ([SequentialComputation], [SequentialEngine]), and
      - [evalml/pipelines/components/transformers/preprocessing/polynomial_decomposer.py]
        ([PolynomialDecomposer]).

    Both modules are glue over other code: the engine calls
    [evaluate_pipeline], [train_pipeline], [pipeline.score],
    [setup_job_log] and [get_objective]; the decomposer calls sktime's
    [Detrender], statsmodels' [seasonal_decompose] and [freq_to_period],
    and [infer_feature_types].  Those callees are not part of the two
    modules; they appear here as the fields of a record of callees (or as
    section variables), and every statement is proved for all of them. *)

From stdpp Require Import base option list strings gmap.
From Stdlib Require Import ZArith Lia.
From Stdlib Require Import Floats.SpecFloat.

Local Open Scope string_scope.
Local Open Scope list_scope.
Local Open Scope Z_scope.

(* ===================================================================== *)
(** * Part I: sequential_engine.py                                        *)
(* ===================================================================== *)

Module Engine.

Section Engine.

(** [World] is everything a callee can read or change: the fitted state
    of pipelines, loggers, random generators. *)
Context {World : Type}.
Context {pipeline data objective objective_spec logger outcome exn : Type}.

(** [automl_data], with the attributes the engine reads. *)
Record AutoMLData := {
  X_train : data;
  y_train : data;
  optimize_thresholds : bool;
  data_objective : objective   (* automl_data.objective *)
}.

(** The Python objects that are passed as keyword arguments. *)
Inductive value :=
| VPipeline (p : pipeline)
| VAutoMLData (a : AutoMLData)
| VData (d : data)
| VLogger (l : logger)
| VBool (b : bool)
| VObjective (o : objective)
| VObjectives (os : list objective)
| VStr (s : string).

(** A callable taking keyword arguments: it runs in a world, returns an
    outcome (a value or an exception, which [get_result] passes on as
    it is) and leaves a world. *)
Definition callable := gmap string value → World → outcome * World.

(** ** class SequentialComputation *)

Record SequentialComputation := {
  work : callable;
  kwargs : gmap string value;
  meta_data : gmap string value
}.

(** [__init__]: stores [work] and the keyword arguments; [meta_data]
    starts as the empty dict. *)
Definition new_computation (w : callable) (kw : gmap string value)
  : SequentialComputation :=
  {| work := w; kwargs := kw; meta_data := ∅ |}.

(** A method call on a computation: from the object and the world to the
    returned value, the object after the call and the world after it. *)
Definition method (A : Type) :=
  SequentialComputation → World → A * SequentialComputation * World.

(** [def done(self) -> bool: return True] *)
Definition done : method bool := λ self w, (true, self, w).

(** [get_result(self)] returns [self.work] applied to the keyword
    arguments [self.kwargs]. *)
Definition get_result : method outcome := λ self w,
  let '(r, w') := work self (kwargs self) w in (r, self, w').

(** [def cancel(self) -> None: return] *)
Definition cancel : method unit := λ self w, (tt, self, w).

(** The three methods as a client may interleave them. *)
Inductive call := CallDone | CallGetResult | CallCancel.

Definition run_call (c : call) (self : SequentialComputation) (w : World)
  : SequentialComputation * World :=
  match c with
  | CallDone => let '(_, s, w') := done self w in (s, w')
  | CallGetResult => let '(_, s, w') := get_result self w in (s, w')
  | CallCancel => let '(_, s, w') := cancel self w in (s, w')
  end.

Fixpoint run_calls (cs : list call) (self : SequentialComputation) (w : World)
  : SequentialComputation * World :=
  match cs with
  | [] => (self, w)
  | c :: cs' => let '(s, w') := run_call c self w in run_calls cs' s w'
  end.

(** ** class SequentialEngine *)

(** The callees.  [score p] is the bound method [pipeline.score];
    [get_objective] may raise (an unknown objective name). *)
Variable evaluate_pipeline : callable.
Variable train_pipeline : callable.
Variable score : pipeline → callable.
Variable pipeline_name : pipeline → string.
Variable setup_job_log : World → logger * World.
Variable get_objective : objective_spec → World → (exn + objective) * World.

Definition evaluation_kwargs (automl_data : AutoMLData) (p : pipeline)
    (lg : logger) : gmap string value :=
  <["pipeline" := VPipeline p]>
  (<["automl_data" := VAutoMLData automl_data]>
  (<["X" := VData (X_train automl_data)]>
  (<["y" := VData (y_train automl_data)]>
  (<["logger" := VLogger lg]> ∅)))).

Definition submit_evaluation_job (automl_data : AutoMLData) (p : pipeline)
    (w : World) : SequentialComputation * World :=
  let '(lg, w1) := setup_job_log w in
  (new_computation evaluate_pipeline (evaluation_kwargs automl_data p lg), w1).

Definition training_kwargs (automl_data : AutoMLData) (p : pipeline)
  : gmap string value :=
  <["pipeline" := VPipeline p]>
  (<["X" := VData (X_train automl_data)]>
  (<["y" := VData (y_train automl_data)]>
  (<["optimize_thresholds" := VBool (optimize_thresholds automl_data)]>
  (<["objective" := VObjective (data_objective automl_data)]> ∅)))).

Definition submit_training_job (automl_data : AutoMLData) (p : pipeline)
    (w : World) : SequentialComputation * World :=
  (new_computation train_pipeline (training_kwargs automl_data p), w).

(** [[get_objective(o, return_instance=True) for o in objectives]]: left
    to right, stopping at the first exception. *)
Fixpoint get_objectives (os : list objective_spec) (w : World)
  : (exn + list objective) * World :=
  match os with
  | [] => (inr [], w)
  | o :: os' =>
      match get_objective o w with
      | (inl e, w1) => (inl e, w1)
      | (inr i, w1) =>
          match get_objectives os' w1 with
          | (inl e, w2) => (inl e, w2)
          | (inr insts, w2) => (inr (i :: insts), w2)
          end
      end
  end.

Definition scoring_kwargs (X y : data) (os : list objective)
  : gmap string value :=
  <["X" := VData X]> (<["y" := VData y]> (<["objectives" := VObjectives os]> ∅)).

Definition submit_scoring_job (automl_data : AutoMLData) (p : pipeline)
    (X y : data) (objectives : list objective_spec) (w : World)
  : (exn + SequentialComputation) * World :=
  match get_objectives objectives w with
  | (inl e, w1) => (inl e, w1)
  | (inr os, w1) =>
      let computation := new_computation (score p) (scoring_kwargs X y os) in
      (inr {| work := work computation;
              kwargs := kwargs computation;
              meta_data := <["pipeline_name" := VStr (pipeline_name p)]>
                             (meta_data computation) |}, w1)
  end.

End Engine.

End Engine.

(* ===================================================================== *)
(** * Part II: polynomial_decomposer.py                                   *)
(* ===================================================================== *)

Module Decomposer.

(** ** Python values given as [degree] *)

(** A binary64 float is a [spec_float] of the Standard Library: a signed
    zero, an infinity, a NaN, or [(-1)^s * m * 2^e].  [PyObject] stands for
    an object that is neither an [int] (or [bool], its subclass) nor a
    [float]; it carries [type(x).__name__]. *)
Inductive pyval :=
| PyInt (z : Z)
| PyBool (b : bool)
| PyFloat (f : spec_float)
| PyStr (s : string)
| PyNone
| PyObject (type_name : string).

(** [isinstance(x, int)] *)
Definition isinstance_int (x : pyval) : bool :=
  match x with PyInt _ | PyBool _ => true | _ => false end.

(** [isinstance(x, float)] *)
Definition isinstance_float (x : pyval) : bool :=
  match x with PyFloat _ => true | _ => false end.

(** [type(x).__name__] *)
Definition type_name_of (x : pyval) : string :=
  match x with
  | PyInt _ => "int"
  | PyBool _ => "bool"
  | PyFloat _ => "float"
  | PyStr _ => "str"
  | PyNone => "NoneType"
  | PyObject n => n
  end.

(** [float.is_integer()]: finite and equal to its floor. *)
Definition is_integer (f : spec_float) : bool :=
  match f with
  | S754_zero _ => true
  | S754_finite _ m e =>
      if 0 <=? e then true else Z.pos m mod 2 ^ (- e) =? 0
  | S754_infinity _ | S754_nan => false
  end.

(** [int(f)]: truncation towards zero (Python raises on an infinity or a
    NaN; [__init__] calls it only after [is_integer]). *)
Definition int_of_float (f : spec_float) : Z :=
  match f with
  | S754_finite s m e =>
      let a := if 0 <=? e then Z.pos m * 2 ^ e else Z.pos m / 2 ^ (- e) in
      if s then - a else a
  | _ => 0
  end.

(** ** Exceptions, indexes and series *)

Section Decomposer.

Context {num : Type}.         (* an element of a target series (float64) *)
Context {features : Type}.    (* the feature frame X *)
Context {detrender : Type}.   (* sktime's Detrender, with what it has fitted *)
Context {callee_exn : Type}.  (* an exception raised inside a callee *)

(** [ValueError] and [TypeError] are the exceptions of the module's own
    [raise] statements, with their message.  The next five are raised by
    the interpreter or by an operator applied in the module.  Whatever a
    callee raises is a [CalleeError]. *)
Inductive exn :=
| ValueError (msg : string)
| TypeError (msg : string)
| AttributeError (attr : string)
| UnboundLocalError (var : string)
| IndexError
| ZeroDivisionError
| OperandError (op : string)
| CalleeError (e : callee_exn).

Inductive result (A : Type) :=
| Ok (a : A)
| Raise (e : exn).
Global Arguments Ok {A} a.
Global Arguments Raise {A} e.

(** A pandas index: a [DatetimeIndex] with its [freqstr] (which may be
    [None]) and its timestamps in nanoseconds, or an index of integers. *)
Inductive Index :=
| DatetimeIndex (freqstr : option string) (stamps : list Z)
| IntIndex (labels : list Z).

Global Instance Index_eq_dec : EqDecision Index.
Proof. solve_decision. Defined.

Record Series := { index : Index; values : list num }.

(** [len(s)] *)
Definition len (s : Series) : nat := length (values s).

Definition index_len (i : Index) : nat :=
  match i with DatetimeIndex _ l | IntIndex l => length l end.

(** [isinstance(i, pd.DatetimeIndex)] *)
Definition is_datetime (i : Index) : bool :=
  match i with DatetimeIndex _ _ => true | IntIndex _ => false end.

(** An element of an index, and the difference of two of them. *)
Inductive label := Timestamp (ns : Z) | IntLabel (i : Z).
Inductive difference := Timedelta (ns : Z) | IntDifference (i : Z).

(** [i[0]] *)
Definition index_first (i : Index) : result label :=
  match i with
  | DatetimeIndex _ (t :: _) => Ok (Timestamp t)
  | IntIndex (k :: _) => Ok (IntLabel k)
  | _ => Raise IndexError
  end.

(** [a - b] on index elements. *)
Definition label_sub (a b : label) : result difference :=
  match a, b with
  | Timestamp x, Timestamp y => Ok (Timedelta (x - y))
  | IntLabel x, IntLabel y => Ok (IntDifference (x - y))
  | _, _ => Raise (OperandError "-")
  end.

(** [i[0:p]]: slicing a DatetimeIndex keeps its frequency. *)
Definition index_take (p : nat) (i : Index) : Index :=
  match i with
  | DatetimeIndex f l => DatetimeIndex f (take p l)
  | IntIndex l => IntIndex (take p l)
  end.

(** [s[0:p]] *)
Definition series_take (p : nat) (s : Series) : Series :=
  {| index := index_take p (index s); values := take p (values s) |}.

(** ** numpy *)

(** [np.tile(a, k)] on a one-dimensional array. *)
Definition np_tile (a : list num) (k : nat) : list num :=
  mjoin (replicate k a).

(** [np.roll(a, shift)]: element [i] moves to [(i + shift) mod n]. *)
Definition np_roll (a : list num) (shift : Z) : list num :=
  let n := length a in
  match n with
  | O => a
  | _ => let s := Z.to_nat (shift mod Z.of_nat n) in
         drop (n - s) a ++ take (n - s) a
  end.

(** [timedelta(days=d)] in nanoseconds. *)
Definition timedelta_days (d : Z) : Z := d * 86400000000000.

(** [str(x)] of a [freqstr]. *)
Definition str_of_freq (f : option string) : string :=
  match f with Some s => s | None => "None" end.

(** ** The callees *)

(** A callee returns a value or raises. *)
Definition callee (A : Type) : Type := callee_exn + A.

(** What the module calls and does not define.  [seasonal_decompose] is
    the [.seasonal] attribute of what statsmodels returns.
    [broadcast_sub] and [broadcast_add] are the arithmetic of a Series
    and an array of ANOTHER length (numpy broadcasting, which mostly
    raises); [reindex] is [pd.Series(s, index=i)] for a series whose
    index is not [i].  On equal lengths and equal indexes the module
    below computes the result itself. *)
Record Callees := {
  nzero : num;
  nsub : num → num → num;
  nadd : num → num → num;
  broadcast_sub : Series → list num → callee Series;
  broadcast_add : Series → list num → callee Series;
  reindex : Series → Index → callee Series;
  infer_feature_types : Series → callee Series;
  ww_init_double : Series → callee unit;
  import_or_raise : string → callee unit;
  new_detrender : pyval → detrender;
  component_init : gmap string pyval → detrender → pyval → callee unit;
  detrender_fit : detrender → Series → callee detrender;
  detrender_transform : detrender → Series → callee Series;
  detrender_inverse_transform : detrender → Series → callee Series;
  freq_to_period : option string → callee nat;
  seasonal_decompose : Series → callee Series
}.

Variable C : Callees.

(** [np.zeros(n)] *)
Definition np_zeros (n : nat) : list num := replicate n (nzero C).

(** [s - a] and [s + a] for a Series [s] and an array [a]: elementwise,
    under the index of [s]. *)
Definition series_sub (s : Series) (a : list num) : callee Series :=
  if decide (length (values s) = length a)
  then inr {| index := index s; values := zip_with (nsub C) (values s) a |}
  else broadcast_sub C s a.

Definition series_add (s : Series) (a : list num) : callee Series :=
  if decide (length (values s) = length a)
  then inr {| index := index s; values := zip_with (nadd C) (values s) a |}
  else broadcast_add C s a.

(** [pd.Series(s, index=i)] for a Series [s]. *)
Definition pd_Series (s : Series) (i : Index) : callee Series :=
  if decide (index s = i) then inr s else reindex C s i.

(** ** class PolynomialDecomposer *)

(** [self.seasonality] is a Series after a fit on a DatetimeIndex and a
    numpy array after a fit on another index. *)
Inductive seasonal_signal :=
| SeasonalSeries (s : Series)
| SeasonalArray (a : list num).

(** [x.T] is [x] for both; [np.tile] takes the values of either. *)
Definition signal_values (x : seasonal_signal) : list num :=
  match x with SeasonalSeries s => values s | SeasonalArray a => a end.

(** The attributes of [self].  [frequency], [periodicity] and
    [seasonality] do not exist before [fit] assigns them: [None] here is
    a missing attribute ([frequency = Some None] is the attribute set to
    Python's [None]). *)
Record PolynomialDecomposer := {
  parameters : gmap string pyval;
  random_seed : pyval;
  _component_obj : detrender;
  frequency : option (option string);
  periodicity : option nat;
  seasonality : option seasonal_signal
}.

Definition set_component_obj (d : detrender) (self : PolynomialDecomposer) :=
  {| parameters := parameters self; random_seed := random_seed self;
     _component_obj := d; frequency := frequency self;
     periodicity := periodicity self; seasonality := seasonality self |}.

Definition set_frequency (f : option string) (self : PolynomialDecomposer) :=
  {| parameters := parameters self; random_seed := random_seed self;
     _component_obj := _component_obj self; frequency := Some f;
     periodicity := periodicity self; seasonality := seasonality self |}.

Definition set_periodicity (p : nat) (self : PolynomialDecomposer) :=
  {| parameters := parameters self; random_seed := random_seed self;
     _component_obj := _component_obj self; frequency := frequency self;
     periodicity := Some p; seasonality := seasonality self |}.

Definition set_seasonality (x : seasonal_signal) (self : PolynomialDecomposer) :=
  {| parameters := parameters self; random_seed := random_seed self;
     _component_obj := _component_obj self; frequency := frequency self;
     periodicity := periodicity self; seasonality := Some x |}.

(** *** The monad of a method body

    A method runs on [self] and leaves [self], changed by the assignments
    made before it returned or raised. *)
Definition M (A : Type) : Type :=
  PolynomialDecomposer → PolynomialDecomposer * result A.

Definition ret {A} (a : A) : M A := λ self, (self, Ok a).

Definition raise {A} (e : exn) : M A := λ self, (self, Raise e).

Definition bind {A B} (c : M A) (k : A → M B) : M B := λ self,
  match c self with
  | (self', Ok a) => k a self'
  | (self', Raise e) => (self', Raise e)
  end.

(** A call of a callee. *)
Definition call {A} (c : callee A) : M A :=
  match c with
  | inr a => ret a
  | inl e => raise (CalleeError e)
  end.

(** A pure step that may raise. *)
Definition lift {A} (r : result A) : M A := λ self, (self, r).

(** [self.name], for an attribute that [fit] creates. *)
Definition getattr {A} (name : string)
    (field : PolynomialDecomposer → option A) : M A := λ self,
  match field self with
  | Some a => (self, Ok a)
  | None => (self, Raise (AttributeError name))
  end.

(** [self.name], for an attribute that [__init__] creates. *)
Definition read {A} (field : PolynomialDecomposer → A) : M A :=
  λ self, (self, Ok (field self)).

(** [self.name = v] *)
Definition assign (upd : PolynomialDecomposer → PolynomialDecomposer) : M unit :=
  λ self, (upd self, Ok tt).

(** A local variable that only one branch assigns. *)
Definition local {A} (name : string) (v : option A) : M A :=
  match v with
  | Some a => ret a
  | None => raise (UnboundLocalError name)
  end.

(** [a // b] on lengths. *)
Definition floordiv (a b : nat) : M nat :=
  match b with
  | O => raise ZeroDivisionError
  | _ => ret (a / b)%nat
  end.

Local Notation "'let!' x ':=' c 'in' k" := (bind c (λ x, k))
  (at level 10, x name, c at level 100, k at level 200, only parsing).
Local Notation "c ';;' k" := (bind c (λ _, k))
  (at level 100, k at level 200, right associativity, only parsing).

(** *** __init__ *)

Definition degree_message (degree : pyval) : string :=
  "Parameter Degree must be an integer!: Received " +:+ type_name_of degree.

(** The check of [degree] that opens [__init__]: the value bound to
    [degree] after it, or the [TypeError]. *)
Definition checked_degree (degree : pyval) : result pyval :=
  if negb (isinstance_int degree) then
    match degree with
    | PyFloat f =>
        if is_integer f then Ok (PyInt (int_of_float f))
        else Raise (TypeError (degree_message degree))
    | _ => Raise (TypeError (degree_message degree))
    end
  else Ok degree.

Definition called {A} (c : callee A) : result A :=
  match c with
  | inr a => Ok a
  | inl e => Raise (CalleeError e)
  end.

Definition rbind {A B} (r : result A) (k : A → result B) : result B :=
  match r with
  | Ok a => k a
  | Raise e => Raise e
  end.

(** [params.update(kwargs)]: the keys of [kwargs] win. *)
Definition __init__ (degree random_seed : pyval) (kwargs : gmap string pyval)
  : result PolynomialDecomposer :=
  rbind (checked_degree degree) (λ degree,
  let params := kwargs ∪ {["degree" := degree]} in
  rbind (called (import_or_raise C "sktime.forecasting.trend")) (λ _,
  rbind (called (import_or_raise C "sktime.transformations.series.detrend")) (λ _,
  let decomposer := new_detrender C degree in
  rbind (called (component_init C params decomposer random_seed)) (λ _,
  Ok {| parameters := params;
        random_seed := random_seed;
        _component_obj := decomposer;
        frequency := None;
        periodicity := None;
        seasonality := None |})))).

(** *** fit *)

Definition y_none_message : string :=
  "y cannot be None for PolynomialDecomposer!".

(** Returns [self]: the state the monad leaves. *)
Definition fit (X : features) (y : option Series) : M unit :=
  match y with
  | None => raise (ValueError y_none_message)
  | Some y =>
      let! y_dt := call (infer_feature_types C y) in
      let! d := read _component_obj in
      let! d' := call (detrender_fit C d y_dt) in
      assign (set_component_obj d') ;;
      match index y_dt with
      | DatetimeIndex freqstr _ =>
          assign (set_frequency freqstr) ;;
          let! f := getattr "frequency" frequency in
          let! p := call (freq_to_period C f) in
          assign (set_periodicity p) ;;
          let! d := read _component_obj in
          let! detrended := call (detrender_transform C d y_dt) in
          let! seasonal := call (seasonal_decompose C detrended) in
          let! p := getattr "periodicity" periodicity in
          assign (set_seasonality (SeasonalSeries (series_take p seasonal)))
      | IntIndex _ =>
          assign (set_seasonality (SeasonalArray (np_zeros (len y_dt))))
      end
  end.

(** *** transform *)

Definition frequency_message (given trained : option string) : string :=
  "Cannot transform given data with frequency " +:+ str_of_freq given +:+
  ". Transformer was trained on data with frequency " +:+ str_of_freq trained.

Definition transform (X : features) (y : option Series)
  : M (features * option Series) :=
  match y with
  | None => ret (X, None)
  | Some y =>
      match index y with
      | DatetimeIndex freqstr _ =>
          let! f := getattr "frequency" frequency in
          if decide (freqstr ≠ f)
          then raise (ValueError (frequency_message freqstr f))
          else ret tt
      | IntIndex _ => ret tt
      end ;;
      let! y_ww := call (infer_feature_types C y) in
      let! d := read _component_obj in
      let! y_detrended := call (detrender_transform C d y_ww) in
      let! seasonal :=
        if is_datetime (index y) then
          let! s := getattr "seasonality" seasonality in
          let! p := getattr "periodicity" periodicity in
          let! q := floordiv (len y_detrended) p in
          ret (take (len y_detrended) (np_tile (signal_values s) (q + 1)))
        else ret (np_zeros (len y)) in
      let! diff := call (series_sub y_detrended seasonal) in
      let! y_t := call (pd_Series diff (index y_ww)) in
      call (ww_init_double C y_t) ;;
      ret (X, Some y_t)
  end.

(** *** fit_transform *)

Definition fit_transform (X : features) (y : option Series)
  : M (features * option Series) :=
  fit X y ;; transform X y.

(** *** inverse_transform *)

(** [self.seasonality.index] and [self.seasonality.T.values]: a numpy
    array has neither attribute. *)
Definition signal_index (x : seasonal_signal) : result Index :=
  match x with
  | SeasonalSeries s => Ok (index s)
  | SeasonalArray _ => Raise (AttributeError "index")
  end.

Definition signal_T_values (x : seasonal_signal) : result (list num) :=
  match x with
  | SeasonalSeries s => Ok (values s)
  | SeasonalArray _ => Raise (AttributeError "values")
  end.

(** [int((diff % period) / delta)] for a difference of index elements and
    two [timedelta]s.  The quotient of the two nanosecond counts is taken
    in the integers. *)
Definition first_ind (diff : difference) (period : Z) (delta_of : M Z) : M Z :=
  match diff with
  | Timedelta ns =>
      if decide (period = 0) then raise ZeroDivisionError
      else
        let! delta := delta_of in
        if decide (delta = 0) then raise ZeroDivisionError
        else ret (Z.quot (ns mod period) delta)
  | IntDifference _ => raise (OperandError "%")
  end.

(** The two local variables that only the branch for daily data
    assigns; [None] is a variable not yet bound. *)
Record inverse_locals := { delta : option Z; period : option Z }.

Definition inverse_transform (y : option Series) : M Series :=
  match y with
  | None => raise (ValueError y_none_message)
  | Some y =>
      let! y_ww := call (infer_feature_types C y) in
      let! d := read _component_obj in
      let! y_retrended := call (detrender_inverse_transform C d y_ww) in
      let! a := lift (index_first (index y_ww)) in
      let! s := getattr "seasonality" seasonality in
      let! si := lift (signal_index s) in
      let! b := lift (index_first si) in
      let! first_index_diff := lift (label_sub a b) in
      let! f := getattr "frequency" frequency in
      let! locals :=
        if decide (f = Some "D") then
          let! p := getattr "periodicity" periodicity in
          ret {| delta := Some (timedelta_days 1);
                 period := Some (timedelta_days (Z.of_nat p)) |}
        else ret {| delta := None; period := None |} in
      let! period := local "period" (period locals) in
      let! transform_first_ind :=
        first_ind first_index_diff period (local "delta" (delta locals)) in
      let! s := getattr "seasonality" seasonality in
      let! sv := lift (signal_T_values s) in
      let! p := getattr "periodicity" periodicity in
      let! q := floordiv (len y_ww) p in
      let seasonal :=
        take (len y_ww) (np_tile (np_roll sv (- transform_first_ind)) (q + 1)) in
      let! sum := call (series_add y_retrended seasonal) in
      let! y_t := call (pd_Series sum (index y_ww)) in
      call (infer_feature_types C y_t)
  end.

End Decomposer.

End Decomposer.

(* ===================================================================== *)
(** * Part II b: polynomial_decomposer.py, [get_trend_dataframe]          *)
(* ===================================================================== *)

Module TrendFrame.

Import Decomposer.

Section TrendFrame.

Context {num features detrender callee_exn : Type}.
Context {forecaster horizon : Type}.

Local Abbreviation Series := (Series (num := num)).
Local Abbreviation callee := (callee (callee_exn := callee_exn)).
Local Abbreviation M :=
  (M (num := num) (detrender := detrender) (callee_exn := callee_exn)).

(** The argument [y]: a Series, a DataFrame (its columns in order, with
    their names) or an object of another type. *)
Inductive target :=
| TargetSeries (s : Series)
| TargetFrame (columns : list (string * Series))
| TargetOther (type_name : string).

(** A returned DataFrame, by its three columns. *)
Record trend_dataframe := {
  trend : Series;
  seasonality : Series;
  residual : Series
}.

(** What [get_trend_dataframe] calls beside the callees of the other
    methods.  [frame_index] is [X.index].  [align_sub] is [a - b] for two
    Series with different indexes and [dataframe_of] is [pd.DataFrame] of
    three columns with different indexes (pandas aligns them); on equal
    indexes the module below computes the result itself.
    [decompose_frame] is what [_decompose_target] does with its cloned
    forecaster on a DataFrame, which is what [y[colname]] is when several
    columns have that name. *)
Record FrameCallees := {
  frame_index : features → Index;
  infer_frame : features → callee features;
  ForecastingHorizon : Index → callee horizon;
  forecaster_of : detrender → forecaster;
  clone : forecaster → forecaster;
  forecaster_fit : forecaster → Series → features → callee forecaster;
  forecaster_predict : forecaster → horizon → Series → callee Series;
  align_sub : Series → Series → callee Series;
  dataframe_of : Series → Series → Series → callee trend_dataframe;
  decompose_frame :
    forecaster → features → list (string * Series) → horizon →
    callee trend_dataframe
}.

Variable C : Callees (num := num) (detrender := detrender)
               (callee_exn := callee_exn).
Variable F : FrameCallees.

Local Notation "'let!' x ':=' c 'in' k" := (bind c (λ x, k))
  (at level 10, x name, c at level 100, k at level 200, only parsing).

(** [a - b] for two Series. *)
Definition series_minus (a b : Series) : callee Series :=
  if decide (index a = index b ∧ length (values a) = length (values b))
  then inr {| index := index a;
              values := zip_with (nsub C) (values a) (values b) |}
  else align_sub F a b.

(** [pd.DataFrame({"trend": t, "seasonality": s, "residual": r})] *)
Definition dataframe (t s r : Series) : callee trend_dataframe :=
  if decide (index t = index s ∧ index s = index r)
  then inr {| trend := t; seasonality := s; residual := r |}
  else dataframe_of F t s r.

(** [y[colname]]: the column of that name, or the DataFrame of the columns
    of that name when there are several. *)
Definition getitem (columns : list (string * Series)) (colname : string)
  : Series + list (string * Series) :=
  match filter (λ c, c.1 = colname) columns with
  | [c] => inl c.2
  | cs => inr cs
  end.

(** The inner function [_decompose_target], on a Series. *)
Definition _decompose_target (X : features) (y : Series) (fh : horizon)
  : M trend_dataframe :=
  let! d := read _component_obj in
  let forecaster := clone F (forecaster_of F d) in
  let! forecaster := call (forecaster_fit F forecaster y X) in
  let! trend := call (forecaster_predict F forecaster fh y) in
  let! detrended := call (series_minus y trend) in
  let! seasonality := call (seasonal_decompose C detrended) in
  let! detrended := call (series_minus y trend) in
  let! residual := call (series_minus detrended seasonality) in
  call (dataframe trend seasonality residual).

Definition decompose_item (X : features)
    (item : Series + list (string * Series)) (fh : horizon)
  : M trend_dataframe :=
  match item with
  | inl y => _decompose_target X y fh
  | inr sub =>
      let! d := read _component_obj in
      let forecaster := clone F (forecaster_of F d) in
      call (decompose_frame F forecaster X sub fh)
  end.

(** The loop over [y.columns], appending to [result_dfs]. *)
Fixpoint decompose_columns (X : features) (columns : list (string * Series))
    (colnames : list string) (fh : horizon) : M (list trend_dataframe) :=
  match colnames with
  | [] => ret []
  | colname :: rest =>
      let! df := decompose_item X (getitem columns colname) fh in
      let! dfs := decompose_columns X columns rest fh in
      ret (df :: dfs)
  end.

Definition X_type_message : string :=
  "Provided X should have datetimes in the index.".
Definition X_freq_message : string :=
  "Provided DatetimeIndex of X should have an inferred frequency.".
Definition y_type_message : string :=
  "y must be pd.Series or pd.DataFrame!".

Definition get_trend_dataframe (X : features) (y : target)
  : M (list trend_dataframe) :=
  let! X := call (infer_frame F X) in
  match frame_index F X with
  | IntIndex _ => raise (TypeError X_type_message)
  | DatetimeIndex None _ => raise (ValueError X_freq_message)
  | DatetimeIndex (Some _) _ =>
      let! fh := call (ForecastingHorizon F (frame_index F X)) in
      match y with
      | TargetSeries s =>
          let! df := _decompose_target X s fh in
          ret [df]
      | TargetFrame columns =>
          decompose_columns X columns (columns.*1) fh
      | TargetOther _ => raise (TypeError y_type_message)
      end
  end.

End TrendFrame.

End TrendFrame.

(* ===================================================================== *)
(** * Part II c: clustering_pipeline.py                                   *)
(* ===================================================================== *)

Module Clustering.

Section Clustering.

Context {data target graph names objectives_arg objectives scores : Type}.
Context {callee_exn : Type}.

Local Abbreviation result := (Decomposer.result (callee_exn := callee_exn)).
Local Abbreviation callee := (Decomposer.callee (callee_exn := callee_exn)).

(** The Series of cluster labels that [predict] returns, with its
    [name]. *)
Record Predictions := { name : option string; labels : list Z }.

(** The attributes of the pipeline that the three methods touch. *)
Record ClusterPipeline := {
  component_graph : graph;
  input_target_name : option string;
  input_feature_names : names
}.

(** The callees.  The two methods of the component graph work on the
    graph in place: they give the graph they leave, also when they
    raise. *)
Record PipelineCallees := {
  infer_feature_types : data → callee data;
  infer_predictions : Predictions → callee Predictions;
  graph_fit : graph → data → option target → graph * callee unit;
  graph_predict : graph → data → graph * callee Predictions;
  graph_input_feature_names : graph → names;
  create_objectives : objectives_arg → callee objectives;
  _score_all_objectives :
    ClusterPipeline → data → option target → Predictions → option unit →
    objectives → callee scores
}.

Variable P : PipelineCallees.

Definition Method (A : Type) : Type :=
  ClusterPipeline → ClusterPipeline * result A.

Definition mret {A} (a : A) : Method A := λ self, (self, Decomposer.Ok a).

Definition mbind {A B} (c : Method A) (k : A → Method B) : Method B :=
  λ self,
    match c self with
    | (self', Decomposer.Ok a) => k a self'
    | (self', Decomposer.Raise e) => (self', Decomposer.Raise e)
    end.

Definition mcall {A} (c : callee A) : Method A := λ self,
  match c with
  | inr a => (self, Decomposer.Ok a)
  | inl e => (self, Decomposer.Raise (Decomposer.CalleeError e))
  end.

(** A call of a method of [self.component_graph]. *)
Definition on_graph {A} (f : graph → graph * callee A) : Method A := λ self,
  let '(g, r) := f (component_graph self) in
  mcall r {| component_graph := g;
             input_target_name := input_target_name self;
             input_feature_names := input_feature_names self |}.

Definition set_input_target_name (v : option string) : Method unit :=
  λ self,
    ({| component_graph := component_graph self;
        input_target_name := v;
        input_feature_names := input_feature_names self |}, Decomposer.Ok tt).

Definition set_input_feature_names (v : names) : Method unit := λ self,
  ({| component_graph := component_graph self;
      input_target_name := input_target_name self;
      input_feature_names := v |}, Decomposer.Ok tt).

Definition get_graph : Method graph :=
  λ self, (self, Decomposer.Ok (component_graph self)).

Definition get_self : Method ClusterPipeline :=
  λ self, (self, Decomposer.Ok self).

Local Notation "'let!' x ':=' c 'in' k" := (mbind c (λ x, k))
  (at level 10, x name, c at level 100, k at level 200, only parsing).
Local Notation "c ';;' k" := (mbind c (λ _, k))
  (at level 100, k at level 200, right associativity, only parsing).

(** [fit(self, X, y=None)]; returns [self]. *)
Definition fit (X : data) (y : option target) : Method unit :=
  let! X := mcall (infer_feature_types P X) in
  set_input_target_name None ;;
  on_graph (λ g, graph_fit P g X y) ;;
  let! g := get_graph in
  set_input_feature_names (graph_input_feature_names P g).

(** [predict(self, X, objective=None, X_train=None, y_train=None)]; the
    last three arguments are not used. *)
Definition predict (X : data) : Method Predictions :=
  let! X := mcall (infer_feature_types P X) in
  let! predictions := on_graph (λ g, graph_predict P g X) in
  let predictions := {| name := Some "Clusters";
                        labels := labels predictions |} in
  mcall (infer_predictions P predictions).

(** [score(self, X, y=None, objectives=None, X_train=None, y_train=None)];
    the last two arguments are not used. *)
Definition score (X : data) (y : option target) (objs : objectives_arg)
  : Method scores :=
  let! objs := mcall (create_objectives P objs) in
  let! y_predicted := predict X in
  let! self := get_self in
  mcall (_score_all_objectives P self X y y_predicted None objs).

End Clustering.

End Clustering.

(* ===================================================================== *)
(** * Part III: statements in the words of the specification, and
      concrete instances on which the theorems are run                   *)
(* ===================================================================== *)

Module EngineSpec.

Section EngineSpec.

Context {World pipeline data objective logger outcome : Type}.

Local Abbreviation computation :=
  (Engine.SequentialComputation (World := World) (pipeline := pipeline)
     (data := data) (objective := objective) (logger := logger)
     (outcome := outcome)).

(** "The work function is executed at submission time": the world that a
    submission leaves is the one the work function leaves when it is run
    on the submitted keyword arguments. *)
Definition runs_work_at_submission (submit : World → computation * World)
  : Prop :=
  ∀ w, (submit w).2
       = (Engine.work (submit w).1 (Engine.kwargs (submit w).1) w).2.

End EngineSpec.

End EngineSpec.

Module EngineDemo.

(** A world that counts how many times a work function has run; the
    other types are trivial. *)
Definition counting_work
  : Engine.callable (World := nat) (pipeline := unit) (data := unit)
      (objective := unit) (logger := unit) (outcome := nat) :=
  λ kw n, (size kw, S n).

Definition demo_data : Engine.AutoMLData (data := unit) (objective := unit) :=
  {| Engine.X_train := tt; Engine.y_train := tt;
     Engine.optimize_thresholds := false; Engine.data_objective := tt |}.

(** Objectives are named by a number; [0] is unknown. *)
Definition demo_get_objective (o : nat) (w : nat) : (string + unit) * nat :=
  match o with
  | O => (inl "ObjectiveNotFoundError", w)
  | S _ => (inr tt, w)
  end.

End EngineDemo.

Module DecomposerSpec.

(** "A float with an integral value": the float is a zero or a finite
    number [(-1)^s * m * 2^e], and that number is the integer [z]. *)
Definition float_value (f : spec_float) (z : Z) : Prop :=
  match f with
  | S754_zero _ => z = 0
  | S754_finite s m e =>
      (if s then -1 else 1) * Z.pos m * 2 ^ Z.max e 0 = z * 2 ^ Z.max (- e) 0
  | S754_infinity _ | S754_nan => False
  end.

(** "An int, or a float with an integral value". *)
Definition integral_degree (degree : Decomposer.pyval) : Prop :=
  (∃ z, degree = Decomposer.PyInt z)
  ∨ (∃ b, degree = Decomposer.PyBool b)
  ∨ (∃ f z, degree = Decomposer.PyFloat f ∧ float_value f z).

(** "The signal [s] tiled to the length [n]": [n] elements, the one at
    position [i] being the element of [s] at [i] modulo the length of
    [s]. *)
Definition tiled_to_length {A} (s : list A) (n : nat) : list A :=
  omap (λ i, s !! (i mod length s)%nat) (seq 0 n).

End DecomposerSpec.

Module SeasonSpec.

(** "The seasonal signal [s] continued from its element [k]": [n]
    elements, the one at position [i] being the element of [s] at [i + k]
    modulo the length of [s]. *)
Definition continued_from {A} (s : list A) (k n : nat) : list A :=
  omap (λ i, s !! ((i + k) mod length s)%nat) (seq 0 n).

End SeasonSpec.

Module DecomposerDemo.

Import Decomposer.

(** Integer-valued series, a detrender that fits the line through the
    first and the last point, and a seasonal decomposition that repeats
    the first period. *)
Definition day : Z := 86400000000000.

Definition daily (n : nat) : Index :=
  DatetimeIndex (Some "D") ((λ k, k * day) <$> seqZ 0 (Z.of_nat n)).

Definition hourly (n : nat) : Index :=
  DatetimeIndex (Some "H") ((λ k, k * 3600000000000) <$> seqZ 0 (Z.of_nat n)).

Definition line : Type := Z * Z.

Definition demo_trend (d : line) (i : Index) : list Z :=
  (λ k, d.1 + d.2 * k) <$> seqZ 0 (Z.of_nat (index_len i)).

Definition demo_fit (d : line) (s : Series (num := Z)) : string + line :=
  match values s with
  | [] => inl "empty series"
  | a :: _ =>
      let n := Z.of_nat (length (values s)) in
      inr (a, (List.last (values s) a - a) / Z.max 1 (n - 1))
  end.

Definition demo_freq_to_period (f : option string) : string + nat :=
  match f with
  | Some "D" => inr 7%nat
  | Some "H" => inr 24%nat
  | Some "M" => inr 12%nat
  | Some "W" => inr 52%nat
  | _ => inl "freq not understood"
  end.

Definition demo_seasonal_decompose (s : Series (num := Z))
  : string + Series (num := Z) :=
  match index s with
  | DatetimeIndex f _ =>
      match demo_freq_to_period f with
      | inr p =>
          if decide (2 * p ≤ length (values s))%nat
          then inr {| index := index s;
                      values := DecomposerSpec.tiled_to_length
                                  (take p (values s)) (length (values s)) |}
          else inl "x must have 2 complete cycles"
      | inl e => inl e
      end
  | IntIndex _ => inl "no frequency"
  end.

Definition demo : Callees (num := Z) (detrender := line) (callee_exn := string) :=
  {| nzero := 0;
     nsub := Z.sub;
     nadd := Z.add;
     broadcast_sub := λ _ _, inl "operands could not be broadcast together";
     broadcast_add := λ _ _, inl "operands could not be broadcast together";
     reindex := λ _ _, inl "reindex";
     infer_feature_types := inr;
     ww_init_double := λ _, inr tt;
     import_or_raise := λ _, inr tt;
     new_detrender := λ _, (0, 0);
     component_init := λ _ _ _, inr tt;
     detrender_fit := demo_fit;
     detrender_transform := λ d s,
       inr {| index := index s;
              values := zip_with Z.sub (values s) (demo_trend d (index s)) |};
     detrender_inverse_transform := λ d s,
       inr {| index := index s;
              values := zip_with Z.add (values s) (demo_trend d (index s)) |};
     freq_to_period := demo_freq_to_period;
     seasonal_decompose := demo_seasonal_decompose |}.

(** Two weeks of daily data, and three hours of hourly data. *)
Definition two_weeks : Series (num := Z) :=
  {| index := daily 14;
     values := [3; 5; 4; 6; 9; 12; 8; 10; 12; 11; 13; 16; 19; 16] |}.

Definition three_hours : Series (num := Z) :=
  {| index := hourly 3; values := [1; 2; 3] |}.

Definition two_days_of_hours : Series (num := Z) :=
  {| index := hourly 48; values := seqZ 0 48 |}.

Definition unindexed : Series (num := Z) :=
  {| index := IntIndex [0; 1; 2]; values := [7; 8; 9] |}.

(** A decomposer as [__init__] leaves it for [degree=1]. *)
Definition fresh : PolynomialDecomposer (num := Z) (detrender := line) :=
  {| parameters := {["degree" := PyInt 1]};
     random_seed := PyInt 0;
     _component_obj := (0, 0);
     frequency := None;
     periodicity := None;
     seasonality := None |}.

(** The decomposer after [fit] on [two_weeks] and on [two_days_of_hours]. *)
Definition fitted_daily : PolynomialDecomposer (num := Z) (detrender := line) :=
  (fit demo tt (Some two_weeks) fresh).1.

Definition fitted_hourly : PolynomialDecomposer (num := Z) (detrender := line) :=
  (fit demo tt (Some two_days_of_hours) fresh).1.

End DecomposerDemo.

Module DecomposerDemoMore.

Import Decomposer DecomposerDemo.

(** Five days of daily data that start three days after [two_weeks], and a
    week that starts one week after it. *)
Definition from_day (start : Z) (n : nat) : Index :=
  DatetimeIndex (Some "D") ((λ k, (start + k) * day) <$> seqZ 0 (Z.of_nat n)).

Definition five_days_later : Series (num := Z) :=
  {| index := from_day 3 5; values := [10; 20; 30; 40; 50] |}.

Definition next_week : Series (num := Z) :=
  {| index := from_day 7 7; values := [11; 13; 12; 14; 17; 20; 16] |}.

(** Daily data with a frequency that [freq_to_period] of the demo rejects,
    and data too short for its [seasonal_decompose]. *)
Definition quarter_hours : Series (num := Z) :=
  {| index := DatetimeIndex (Some "15T") [0; 900000000000; 1800000000000];
     values := [1; 2; 3] |}.

Definition three_days : Series (num := Z) :=
  {| index := daily 3; values := [1; 2; 3] |}.

End DecomposerDemoMore.

Module TrendFrameDemo.

Import Decomposer DecomposerDemo.

(** A feature frame is given by its index; the forecaster is the line of
    the demo detrender and its clone is the line not yet fitted. *)
Definition demo_frame
  : TrendFrame.FrameCallees (num := Z) (features := Index)
      (detrender := line) (callee_exn := string) (forecaster := line)
      (horizon := Index) :=
  {| TrendFrame.frame_index := λ X, X;
     TrendFrame.infer_frame := inr;
     TrendFrame.ForecastingHorizon := inr;
     TrendFrame.forecaster_of := λ d, d;
     TrendFrame.clone := λ _, (0, 0);
     TrendFrame.forecaster_fit := λ f y _, demo_fit f y;
     TrendFrame.forecaster_predict := λ f fh _,
       inr {| index := fh; values := demo_trend f fh |};
     TrendFrame.align_sub := λ _ _, inl "indexes differ";
     TrendFrame.dataframe_of := λ _ _ _, inl "indexes differ";
     TrendFrame.decompose_frame := λ _ _ _ _, inl "duplicate column names" |}.

Definition undated : Index := IntIndex [0; 1; 2].

Definition irregular : Index := DatetimeIndex None [0; 5; 7].

Definition two_columns : list (string * Series (num := Z)) :=
  [("a", two_weeks);
   ("b", {| index := daily 14;
            values := [1; 1; 2; 3; 5; 8; 13; 4; 4; 5; 6; 8; 11; 16] |})].

End TrendFrameDemo.

Module ClusteringDemo.

Import Clustering.

(** Data are lists of numbers, the graph counts its fits and puts every
    row in the cluster of its own value, naming the result ["kmeans"];
    objectives are names, and the score is the number of objectives. *)
Definition demo_pipeline
  : PipelineCallees (data := list Z) (target := unit) (graph := nat)
      (names := list string) (objectives_arg := list string)
      (objectives := list string) (scores := nat) (callee_exn := string) :=
  {| infer_feature_types := inr;
     infer_predictions := inr;
     graph_fit := λ g X _,
       match X with
       | [] => (g, inl "no rows")
       | _ => (S g, inr tt)
       end;
     graph_predict := λ g X, (g, inr {| name := Some "kmeans"; labels := X |});
     graph_input_feature_names := λ g, ["x"];
     create_objectives := λ os,
       match os with
       | [] => inl "no objectives"
       | _ => inr os
       end;
     _score_all_objectives := λ _ _ _ _ _ os, inr (length os) |}.

Definition unfitted : ClusterPipeline (graph := nat) (names := list string) :=
  {| component_graph := 0%nat;
     input_target_name := Some "target";
     input_feature_names := [] |}.

End ClusteringDemo.

Module Binary64Demo.

Import Decomposer.

(** binary64 arithmetic, as numpy has it: the operations of the Standard
    Library's [SpecFloat] at precision 53 and maximal exponent 1024. *)
Definition float_sub : spec_float → spec_float → spec_float := SFsub 53 1024.
Definition float_add : spec_float → spec_float → spec_float := SFadd 53 1024.

(** The binary64 floats nearest to 0.1, 0.2 and 0.3. *)
Definition f0_1 : spec_float := S754_finite false 7205759403792794 (-56).
Definition f0_2 : spec_float := S754_finite false 7205759403792794 (-55).
Definition f0_3 : spec_float := S754_finite false 5404319552844595 (-54).

(** The trend of a detrender whose fit has found the constant [d]. *)
Definition constant_trend (d : spec_float) (i : Index) : list spec_float :=
  replicate (index_len i) d.

(** Callees on binary64 series: a detrender whose fit finds the constant
    trend [t] and a seasonal decomposition that finds the value [s] at
    every position. *)
Definition binary64_callees (t s : spec_float)
  : Callees (num := spec_float) (detrender := spec_float)
      (callee_exn := string) :=
  {| nzero := S754_zero false;
     nsub := float_sub;
     nadd := float_add;
     broadcast_sub := λ _ _, inl "operands could not be broadcast together";
     broadcast_add := λ _ _, inl "operands could not be broadcast together";
     reindex := λ _ _, inl "reindex";
     infer_feature_types := inr;
     ww_init_double := λ _, inr tt;
     import_or_raise := λ _, inr tt;
     new_detrender := λ _, S754_zero false;
     component_init := λ _ _ _, inr tt;
     detrender_fit := λ _ _, inr t;
     detrender_transform := λ d y,
       inr {| index := index y;
              values := zip_with float_sub (values y)
                          (constant_trend d (index y)) |};
     detrender_inverse_transform := λ d y,
       inr {| index := index y;
              values := zip_with float_add (values y)
                          (constant_trend d (index y)) |};
     freq_to_period := DecomposerDemo.demo_freq_to_period;
     seasonal_decompose := λ y,
       inr {| index := index y; values := (λ _, s) <$> values y |} |}.

(** Two weeks of daily data, 0.1 every day. *)
Definition tenths : Series (num := spec_float) :=
  {| index := DecomposerDemo.daily 14; values := replicate 14 f0_1 |}.

Definition fresh64
  : PolynomialDecomposer (num := spec_float) (detrender := spec_float) :=
  {| parameters := {["degree" := PyInt 1]};
     random_seed := PyInt 0;
     _component_obj := S754_zero false;
     frequency := None;
     periodicity := None;
     seasonality := None |}.

Definition fitted64
  : PolynomialDecomposer (num := spec_float) (detrender := spec_float) :=
  (fit (binary64_callees f0_2 f0_3) tt (Some tenths) fresh64).1.

End Binary64Demo.

(* ===================================================================== *)
(** * Part IV: the sequential engine, theorems                            *)
(* ===================================================================== *)

Module EngineFacts.

Section EngineFacts.

Context {World pipeline data objective objective_spec logger outcome exn : Type}.

Local Abbreviation computation :=
  (Engine.SequentialComputation (World := World) (pipeline := pipeline)
     (data := data) (objective := objective) (logger := logger)
     (outcome := outcome)).
Local Abbreviation callable :=
  (Engine.callable (World := World) (pipeline := pipeline)
     (data := data) (objective := objective) (logger := logger)
     (outcome := outcome)).

Implicit Types (self : computation) (w : World) (p : pipeline).

Lemma get_result_spec self w :
  Engine.get_result self w
  = ((Engine.work self (Engine.kwargs self) w).1, self,
     (Engine.work self (Engine.kwargs self) w).2).
Proof.
  unfold Engine.get_result.
  by destruct (Engine.work self (Engine.kwargs self) w).
Qed.

Lemma run_call_self (c : Engine.call) self w :
  (Engine.run_call c self w).1 = self.
Proof.
  destruct c; simpl; [done| |done].
  rewrite get_result_spec. done.
Qed.

Lemma run_calls_self (cs : list Engine.call) self w :
  (Engine.run_calls cs self w).1 = self.
Proof.
  revert self w. induction cs as [|c cs IH]; intros self w; simpl; [done|].
  pose proof (run_call_self c self w) as Hc.
  destruct (Engine.run_call c self w) as [s w']. simpl in Hc. subst s.
  apply IH.
Qed.

(** C1, as amended.  A submission only builds the computation: it stores
    the work function and the keyword arguments and runs nothing but
    [setup_job_log] (evaluation) or [get_objective] (scoring).  The work
    function runs when [get_result] is called, in the world of that
    call, and [get_result] returns exactly what the work function
    returns on the submitted keyword arguments. *)
Theorem C1_submit_stores_get_result_runs
    (evaluate_pipeline train_pipeline : callable)
    (score : pipeline → callable) (pipeline_name : pipeline → string)
    (setup_job_log : World → logger * World)
    (get_objective : objective_spec → World → (exn + objective) * World)
    (automl_data : Engine.AutoMLData) p (X y : data)
    (objectives : list objective_spec) w :
  (∃ self, Engine.submit_evaluation_job evaluate_pipeline setup_job_log
             automl_data p w = (self, (setup_job_log w).2)
     ∧ Engine.work self = evaluate_pipeline
     ∧ Engine.kwargs self
       = Engine.evaluation_kwargs automl_data p (setup_job_log w).1
     ∧ ∀ w', Engine.get_result self w'
             = ((evaluate_pipeline (Engine.kwargs self) w').1, self,
                (evaluate_pipeline (Engine.kwargs self) w').2))
  ∧ (∃ self, Engine.submit_training_job train_pipeline automl_data p w
             = (self, w)
     ∧ Engine.work self = train_pipeline
     ∧ Engine.kwargs self = Engine.training_kwargs automl_data p
     ∧ ∀ w', Engine.get_result self w'
             = ((train_pipeline (Engine.kwargs self) w').1, self,
                (train_pipeline (Engine.kwargs self) w').2))
  ∧ (∀ insts w1,
       Engine.get_objectives get_objective objectives w = (inr insts, w1) →
       ∃ self, Engine.submit_scoring_job score pipeline_name get_objective
                 automl_data p X y objectives w = (inr self, w1)
       ∧ Engine.work self = score p
       ∧ Engine.kwargs self = Engine.scoring_kwargs X y insts
       ∧ Engine.meta_data self !! "pipeline_name"
         = Some (Engine.VStr (pipeline_name p))
       ∧ ∀ w', Engine.get_result self w'
               = ((score p (Engine.kwargs self) w').1, self,
                  (score p (Engine.kwargs self) w').2)).
Proof.
  split; [|split].
  - unfold Engine.submit_evaluation_job.
    destruct (setup_job_log w) as [lg w1]. simpl.
    eexists. split; [reflexivity|]. simpl. split; [done|]. split; [done|].
    intros w'. by rewrite get_result_spec.
  - unfold Engine.submit_training_job.
    eexists. split; [reflexivity|]. simpl. split; [done|]. split; [done|].
    intros w'. by rewrite get_result_spec.
  - intros insts w1 Hobj. unfold Engine.submit_scoring_job. rewrite Hobj.
    eexists. split; [reflexivity|]. simpl. split; [done|]. split; [done|].
    split; [by rewrite lookup_insert_eq|].
    intros w'. by rewrite get_result_spec.
Qed.

(** C2.  [done()] returns [True] on every computation, whatever its work
    function and keyword arguments, and after any sequence of calls of
    [done], [get_result] and [cancel]; none of them changes the
    computation. *)
Theorem C2_done_always_true (cs : list Engine.call) self w :
  Engine.done self w = (true, self, w)
  ∧ (Engine.run_calls cs self w).1 = self
  ∧ Engine.done (Engine.run_calls cs self w).1 (Engine.run_calls cs self w).2
    = (true, self, (Engine.run_calls cs self w).2).
Proof.
  split; [done|]. split; [apply run_calls_self|].
  unfold Engine.done. by rewrite run_calls_self.
Qed.

(** C8.  [cancel()] returns [None] and changes neither the computation
    (its [work], [kwargs] and [meta_data]) nor the world: after it
    [done()] is still [True] and [get_result()] still returns the work
    function applied to the submitted keyword arguments. *)
Theorem C8_cancel_no_effect self w :
  Engine.cancel self w = (tt, self, w)
  ∧ Engine.work (Engine.cancel self w).1.2 = Engine.work self
  ∧ Engine.kwargs (Engine.cancel self w).1.2 = Engine.kwargs self
  ∧ Engine.meta_data (Engine.cancel self w).1.2 = Engine.meta_data self
  ∧ Engine.done (Engine.cancel self w).1.2 (Engine.cancel self w).2
    = (true, self, w)
  ∧ Engine.get_result (Engine.cancel self w).1.2 (Engine.cancel self w).2
    = ((Engine.work self (Engine.kwargs self) w).1, self,
       (Engine.work self (Engine.kwargs self) w).2).
Proof.
  simpl. repeat split. apply get_result_spec.
Qed.

End EngineFacts.

(** C1 as the claim has it fails: submitting a training job whose work
    function counts its runs leaves the count at 0, where running the work
    function leaves 1. *)
Lemma C1_work_not_run_at_submission :
  ¬ EngineSpec.runs_work_at_submission
      (Engine.submit_training_job EngineDemo.counting_work
         EngineDemo.demo_data tt).
Proof.
  intros H. specialize (H 0%nat). vm_compute in H. discriminate H.
Qed.

(** The scoring part of C1 on a concrete submission. *)
Lemma C1_witness :
  Engine.get_objectives EngineDemo.demo_get_objective [1%nat; 2%nat] 0%nat
  = (inr [tt; tt], 0%nat)
  ∧ ∃ self,
      Engine.submit_scoring_job (λ _ : unit, EngineDemo.counting_work)
        (λ _, "demo") EngineDemo.demo_get_objective EngineDemo.demo_data tt
        tt tt [1%nat; 2%nat] 0%nat = (inr self, 0%nat)
      ∧ Engine.get_result self 5%nat = (3%nat, self, 6%nat).
Proof.
  split; [reflexivity|].
  destruct (C1_submit_stores_get_result_runs EngineDemo.counting_work
              EngineDemo.counting_work (λ _ : unit, EngineDemo.counting_work)
              (λ _, "demo") (λ w : nat, (tt, w)) EngineDemo.demo_get_objective
              EngineDemo.demo_data tt tt tt [1%nat; 2%nat] 0%nat)
    as (_ & _ & Hs).
  destruct (Hs [tt; tt] 0%nat eq_refl) as (self & Hsub & Hw & Hk & _ & Hres).
  exists self. split; [exact Hsub|].
  rewrite Hres, Hk. reflexivity.
Defined.

End EngineFacts.

(** ** More on the engine: when the work runs, and how objectives are
    resolved *)

Module EngineMore.

Section EngineMore.

Context {World pipeline data objective objective_spec logger outcome exn : Type}.

Local Abbreviation computation :=
  (Engine.SequentialComputation (World := World) (pipeline := pipeline)
     (data := data) (objective := objective) (logger := logger)
     (outcome := outcome)).
Local Abbreviation callable :=
  (Engine.callable (World := World) (pipeline := pipeline)
     (data := data) (objective := objective) (logger := logger)
     (outcome := outcome)).

Implicit Types (self : computation) (w : World) (p : pipeline).

(** The world after one run of the work function of [self]. *)
Local Abbreviation after_work self :=
  (λ w, (Engine.work self (Engine.kwargs self) w).2).

Lemma run_get_result self w :
  Engine.run_call Engine.CallGetResult self w = (self, after_work self w).
Proof.
  simpl. unfold Engine.get_result.
  by destruct (Engine.work self (Engine.kwargs self) w).
Qed.

(** X1.  Nothing is cached: [n] calls of [get_result] run the work
    function [n] times, each in the world the previous run has left, and
    the call after them returns what the work function returns in the
    world left by the [n]-th run. *)
Theorem get_result_runs_work_each_time (n : nat) self w :
  Engine.run_calls (replicate n Engine.CallGetResult) self w
  = (self, Nat.iter n (after_work self) w)
  ∧ Engine.get_result self (Nat.iter n (after_work self) w)
    = ((Engine.work self (Engine.kwargs self)
          (Nat.iter n (after_work self) w)).1,
       self, Nat.iter (S n) (after_work self) w).
Proof.
  split.
  - revert w. induction n as [|n IH]; intros w; [done|].
    cbn [replicate Engine.run_calls]. rewrite run_get_result, IH.
    by rewrite Nat.iter_succ_r.
  - unfold Engine.get_result. simpl.
    by destruct (Engine.work self (Engine.kwargs self) _).
Qed.

(** X2.  Without [get_result] the work function never runs: any sequence
    of [done] and [cancel] calls leaves the world and the computation as
    they were. *)
Theorem work_runs_only_in_get_result (cs : list Engine.call) self w :
  Forall (λ c, c ≠ Engine.CallGetResult) cs →
  Engine.run_calls cs self w = (self, w).
Proof.
  induction 1 as [|c cs Hc _ IH]; [done|].
  destruct c; simpl; [apply IH|done|apply IH].
Qed.

Section objectives.

Variable get_objective : objective_spec → World → (exn + objective) * World.
Variable score : pipeline → callable.
Variable pipeline_name : pipeline → string.

Lemma get_objectives_app_ok (pre post : list objective_spec)
    (i1 i2 : list objective) w w1 w2 :
  Engine.get_objectives get_objective pre w = (inr i1, w1) →
  Engine.get_objectives get_objective post w1 = (inr i2, w2) →
  Engine.get_objectives get_objective (pre ++ post) w = (inr (i1 ++ i2), w2).
Proof.
  revert i1 w. induction pre as [|o pre IH]; intros i1 w Hpre Hpost.
  - by simplify_eq/=.
  - simpl in *.
    destruct (get_objective o w) as [[e|i] w'] eqn:Ho; [done|].
    destruct (Engine.get_objectives get_objective pre w')
      as [[e|insts] w''] eqn:Hrest; [done|].
    simplify_eq. by rewrite (IH insts w' Hrest Hpost).
Qed.

Lemma get_objectives_app_fail (pre post : list objective_spec)
    (i1 : list objective) (e : exn) w w1 w2 :
  Engine.get_objectives get_objective pre w = (inr i1, w1) →
  Engine.get_objectives get_objective post w1 = (inl e, w2) →
  Engine.get_objectives get_objective (pre ++ post) w = (inl e, w2).
Proof.
  revert i1 w. induction pre as [|o pre IH]; intros i1 w Hpre Hpost.
  - by simplify_eq/=.
  - simpl in *.
    destruct (get_objective o w) as [[e'|i] w'] eqn:Ho; [done|].
    destruct (Engine.get_objectives get_objective pre w')
      as [[e'|insts] w''] eqn:Hrest; [done|].
    simplify_eq. by rewrite (IH insts w' Hrest Hpost).
Qed.

Lemma get_objectives_length (os : list objective_spec)
    (insts : list objective) w w1 :
  Engine.get_objectives get_objective os w = (inr insts, w1) →
  length insts = length os.
Proof.
  revert insts w. induction os as [|o os IH]; intros insts w H; simpl in *.
  - by simplify_eq.
  - destruct (get_objective o w) as [[e|i] w'] eqn:Ho; [done|].
    destruct (Engine.get_objectives get_objective os w')
      as [[e|rest] w''] eqn:Hrest; [done|].
    simplify_eq. simpl. f_equal. by eapply IH.
Qed.

(** X3.  A scoring job is not built when an objective cannot be resolved:
    if the objectives before [o] resolve and [o] raises [e], then
    [submit_scoring_job] raises [e], returns no computation, and leaves
    the world as the failing lookup left it; the objectives after [o] are
    not looked up. *)
Theorem scoring_job_stops_at_first_unknown_objective
    (automl_data : Engine.AutoMLData) p (X y : data)
    (pre post : list objective_spec) (o : objective_spec)
    (insts : list objective) (e : exn) w w1 w2 :
  Engine.get_objectives get_objective pre w = (inr insts, w1) →
  get_objective o w1 = (inl e, w2) →
  Engine.submit_scoring_job score pipeline_name get_objective automl_data
    p X y (pre ++ o :: post) w
  = (inl e, w2).
Proof.
  intros Hpre Ho. unfold Engine.submit_scoring_job.
  erewrite get_objectives_app_fail; [done|exact Hpre|].
  simpl. by rewrite Ho.
Qed.

(** X4.  When a scoring job is built, its work function gets one
    objective instance per submitted objective, in the order of
    submission, each resolved in the world left by the one before it. *)
Theorem scoring_job_resolves_objectives_in_order
    (automl_data : Engine.AutoMLData) p (X y : data)
    (pre post : list objective_spec) (i1 i2 : list objective) w w1 w2 :
  Engine.get_objectives get_objective pre w = (inr i1, w1) →
  Engine.get_objectives get_objective post w1 = (inr i2, w2) →
  ∃ self,
    Engine.submit_scoring_job score pipeline_name get_objective automl_data
      p X y (pre ++ post) w = (inr self, w2)
    ∧ Engine.kwargs self !! "objectives"
      = Some (Engine.VObjectives (i1 ++ i2))
    ∧ length (i1 ++ i2) = length (pre ++ post).
Proof.
  intros Hpre Hpost. unfold Engine.submit_scoring_job.
  pose proof (get_objectives_app_ok _ _ _ _ _ _ _ Hpre Hpost) as Happ.
  rewrite Happ. eexists. split; [reflexivity|]. split.
  - simpl. unfold Engine.scoring_kwargs.
    rewrite !lookup_insert_ne by done. by rewrite lookup_insert_eq.
  - by eapply get_objectives_length.
Qed.

End objectives.

End EngineMore.

Lemma work_runs_only_in_get_result_witness :
  Forall (λ c, c ≠ Engine.CallGetResult)
    [Engine.CallDone; Engine.CallCancel; Engine.CallDone]
  ∧ Engine.run_calls [Engine.CallDone; Engine.CallCancel; Engine.CallDone]
      (Engine.new_computation EngineDemo.counting_work ∅) 0%nat
    = (Engine.new_computation EngineDemo.counting_work ∅, 0%nat).
Proof.
  assert (Forall (λ c, c ≠ Engine.CallGetResult)
            [Engine.CallDone; Engine.CallCancel; Engine.CallDone]) as H
    by (repeat constructor; discriminate).
  split; [exact H|].
  exact (work_runs_only_in_get_result _ _ _ H).
Defined.

Lemma scoring_job_stops_witness :
  Engine.get_objectives EngineDemo.demo_get_objective [1%nat] 0%nat
  = (inr [tt], 0%nat)
  ∧ EngineDemo.demo_get_objective 0%nat 0%nat
    = (inl "ObjectiveNotFoundError", 0%nat)
  ∧ Engine.submit_scoring_job (λ _ : unit, EngineDemo.counting_work)
      (λ _, "demo") EngineDemo.demo_get_objective EngineDemo.demo_data tt
      tt tt ([1%nat] ++ 0%nat :: [2%nat]) 0%nat
    = (inl "ObjectiveNotFoundError", 0%nat).
Proof.
  split; [reflexivity|]. split; [reflexivity|].
  exact (scoring_job_stops_at_first_unknown_objective
           EngineDemo.demo_get_objective (λ _ : unit, EngineDemo.counting_work)
           (λ _, "demo") EngineDemo.demo_data tt tt tt [1%nat] [2%nat] 0%nat
           [tt] "ObjectiveNotFoundError" 0%nat 0%nat 0%nat eq_refl eq_refl).
Defined.

Lemma scoring_job_order_witness :
  Engine.get_objectives EngineDemo.demo_get_objective [1%nat] 0%nat
  = (inr [tt], 0%nat)
  ∧ Engine.get_objectives EngineDemo.demo_get_objective [2%nat; 3%nat] 0%nat
    = (inr [tt; tt], 0%nat)
  ∧ ∃ self,
      Engine.submit_scoring_job (λ _ : unit, EngineDemo.counting_work)
        (λ _, "demo") EngineDemo.demo_get_objective EngineDemo.demo_data tt
        tt tt ([1%nat] ++ [2%nat; 3%nat]) 0%nat = (inr self, 0%nat)
      ∧ Engine.kwargs self !! "objectives"
        = Some (Engine.VObjectives ([tt] ++ [tt; tt]))
      ∧ length ([tt] ++ [tt; tt]) = length ([1%nat] ++ [2%nat; 3%nat]).
Proof.
  split; [reflexivity|]. split; [reflexivity|].
  exact (scoring_job_resolves_objectives_in_order
           EngineDemo.demo_get_objective (λ _ : unit, EngineDemo.counting_work)
           (λ _, "demo") EngineDemo.demo_data tt tt tt [1%nat] [2%nat; 3%nat]
           [tt] [tt; tt] 0%nat 0%nat 0%nat eq_refl eq_refl).
Defined.

End EngineMore.

(* ===================================================================== *)
(** * Part V: the polynomial decomposer, theorems                         *)
(* ===================================================================== *)

Module DecomposerFacts.

Import Decomposer.

(** ** Floats with an integral value *)

Lemma is_integer_float_value (f : spec_float) :
  is_integer f = true ↔ ∃ z, DecomposerSpec.float_value f z.
Proof.
  destruct f as [s|s| |s m e]; simpl.
  - split; [by exists 0|done].
  - split; [done|by intros [? []]].
  - split; [done|by intros [? []]].
  - destruct (Z.leb_spec 0 e) as [He|He].
    + split; [intros _|done].
      exists ((if s then -1 else 1) * Z.pos m * 2 ^ e).
      rewrite (Z.max_l e 0), (Z.max_r (- e) 0) by lia. simpl. lia.
    + rewrite (Z.max_r e 0), (Z.max_l (- e) 0) by lia.
      assert (0 < 2 ^ (- e)) as Hpow by (apply Z.pow_pos_nonneg; lia).
      rewrite Z.eqb_eq. split.
      * intros Hmod. apply Z.mod_divide in Hmod; [|lia].
        destruct Hmod as [q Hq].
        exists ((if s then -1 else 1) * q). rewrite Hq. simpl. lia.
      * intros [z Hz]. apply Z.mod_divide; [lia|].
        exists ((if s then -1 else 1) * z). destruct s; simpl in Hz; lia.
Qed.

Lemma int_of_float_value (f : spec_float) (z : Z) :
  DecomposerSpec.float_value f z → int_of_float f = z.
Proof.
  destruct f as [s|s| |s m e]; simpl; try done.
  destruct (Z.leb_spec 0 e) as [He|He].
  - rewrite (Z.max_l e 0), (Z.max_r (- e) 0) by lia. simpl.
    destruct s; lia.
  - rewrite (Z.max_r e 0), (Z.max_l (- e) 0) by lia. simpl.
    assert (0 < 2 ^ (- e)) as Hpow by (apply Z.pow_pos_nonneg; lia).
    intros Hz.
    assert (Z.pos m = (if s then - z else z) * 2 ^ (- e)) as ->
      by (destruct s; lia).
    rewrite Z.div_mul by lia. destruct s; lia.
Qed.

Section DecomposerFacts.

Context {num features detrender callee_exn : Type}.

Local Abbreviation Callees :=
  (Callees (num := num) (detrender := detrender) (callee_exn := callee_exn)).
Local Abbreviation PolynomialDecomposer :=
  (PolynomialDecomposer (num := num) (detrender := detrender)).
Local Abbreviation Series := (Series (num := num)).
Local Abbreviation result := (result (callee_exn := callee_exn)).
Local Abbreviation M :=
  (M (num := num) (detrender := detrender) (callee_exn := callee_exn)).

Implicit Types (C : Callees) (self st : PolynomialDecomposer)
  (X : features) (y : Series) (d : detrender).

(** ** Tiling, rolling and elementwise arithmetic *)

Lemma np_tile_length {A} (a : list A) (k : nat) :
  length (np_tile a k) = (k * length a)%nat.
Proof.
  unfold np_tile. induction k as [|k IH]; simpl; [done|].
  by rewrite length_app, IH.
Qed.

Lemma np_tile_lookup {A} (a : list A) (k i : nat) :
  (i < k * length a)%nat →
  np_tile a k !! i = a !! (i mod length a)%nat.
Proof.
  unfold np_tile. revert i. induction k as [|k IH]; intros i Hi; simpl in *.
  - lia.
  - destruct (decide (i < length a)%nat) as [Hlt|Hge].
    + rewrite lookup_app_l by done. by rewrite Nat.mod_small.
    + rewrite lookup_app_r by lia. rewrite IH by lia. f_equal.
      assert (length a ≠ 0)%nat as Hne by lia.
      replace i with ((i - length a) + 1 * length a)%nat at 2 by lia.
      by rewrite Nat.Div0.mod_add.
Qed.

Lemma tiled_to_length_S {A} (a : list A) (n : nat) (x : A) :
  a !! (n mod length a)%nat = Some x →
  DecomposerSpec.tiled_to_length a (S n)
  = DecomposerSpec.tiled_to_length a n ++ [x].
Proof.
  intros Hx. unfold DecomposerSpec.tiled_to_length.
  rewrite seq_S, omap_app. simpl. by rewrite Hx.
Qed.

(** The code's [np.tile(s, k)[:n]] is the signal tiled to the length
    [n], as soon as [k] copies are enough. *)
Lemma take_tile_tiled {A} (a : list A) (k n : nat) :
  (n ≤ k * length a)%nat →
  take n (np_tile a k) = DecomposerSpec.tiled_to_length a n.
Proof.
  induction n as [|n IH]; intros Hn; [done|].
  assert (n < k * length a)%nat as Hlt by lia.
  assert (is_Some (np_tile a k !! n)) as [x Hx]
    by (apply lookup_lt_is_Some; rewrite np_tile_length; lia).
  rewrite (take_S_r _ _ x Hx), IH by lia.
  rewrite np_tile_lookup in Hx by done.
  by rewrite (tiled_to_length_S _ _ x Hx).
Qed.

Lemma tiled_to_length_length {A} (a : list A) (n : nat) :
  (0 < length a)%nat →
  length (DecomposerSpec.tiled_to_length a n) = n.
Proof.
  intros Ha. induction n as [|n IH]; [done|].
  assert (is_Some (a !! (n mod length a)%nat)) as [x Hx].
  { apply lookup_lt_is_Some. apply Nat.mod_upper_bound. lia. }
  rewrite (tiled_to_length_S _ _ x Hx), length_app, IH. simpl. lia.
Qed.

(** [n // p + 1] copies of a period of length [p] cover [n] elements. *)
Lemma copies_cover (n p : nat) :
  (0 < p)%nat → (n ≤ (n / p + 1) * p)%nat.
Proof.
  intros Hp. pose proof (Nat.div_mod_eq n p) as Hd.
  pose proof (Nat.mod_upper_bound n p ltac:(lia)) as Hm. nia.
Qed.

(** So do [n // p + 1] copies of the first [p] elements of a signal of
    length [n], also when [n < p]. *)
Lemma copies_of_prefix_cover {A} (l : list A) (p : nat) :
  (0 < p)%nat →
  (length l ≤ (length l / p + 1) * length (take p l))%nat.
Proof.
  intros Hp. rewrite length_take.
  destruct (decide (p ≤ length l)%nat) as [Hle|Hgt].
  - rewrite Nat.min_l by done. by apply copies_cover.
  - rewrite Nat.min_r by lia. rewrite Nat.div_small by lia. lia.
Qed.

Lemma np_roll_0 {A} (a : list A) : np_roll a (- 0) = a.
Proof.
  unfold np_roll. destruct (length a) as [|n] eqn:Hn; [done|].
  rewrite Z.opp_0, Z.mod_0_l by lia. simpl Z.to_nat.
  rewrite Nat.sub_0_r, <- Hn, drop_all, take_ge by done. done.
Qed.

(** Removing a trend and a seasonal signal and adding both back, when
    the arithmetic is exact. *)
Lemma add_back_removed (sub add : num → num → num) (ys ts ss : list num) :
  (∀ a t s, add (add (sub (sub a t) s) t) s = a) →
  length ts = length ys → length ss = length ys →
  zip_with add (zip_with add (zip_with sub (zip_with sub ys ts) ss) ts) ss
  = ys.
Proof.
  intros Hexact. revert ts ss.
  induction ys as [|y ys IH]; intros [|t ts] [|s ss] Ht Hs;
    simplify_eq/=; [done|].
  by rewrite Hexact, IH.
Qed.

(** ** The constructor *)

Lemma checked_degree_spec (degree : pyval) :
  (DecomposerSpec.integral_degree degree →
     ∃ v, checked_degree (callee_exn := callee_exn) degree = Ok v)
  ∧ (¬ DecomposerSpec.integral_degree degree →
     checked_degree (callee_exn := callee_exn) degree
     = Raise (TypeError (degree_message degree))).
Proof.
  unfold DecomposerSpec.integral_degree, checked_degree.
  destruct degree as [z|b|f|s| |n]; simpl.
  - split; [by eexists|]. intros []. left. by eexists.
  - split; [by eexists|]. intros []. right. left. by eexists.
  - destruct (is_integer f) eqn:Hf.
    + split; [by eexists|]. intros []. right. right.
      apply is_integer_float_value in Hf as [z Hz]. by exists f, z.
    + split; [|done]. intros [[? ?]|[[? ?]|(f' & z & Heq & Hz)]]; try done.
      injection Heq as <-.
      assert (is_integer f = true) as Hf'
        by (apply is_integer_float_value; by exists z).
      congruence.
  - split; [|done]. by intros [[? ?]|[[? ?]|(? & ? & ? & ?)]].
  - split; [|done]. by intros [[? ?]|[[? ?]|(? & ? & ? & ?)]].
  - split; [|done]. by intros [[? ?]|[[? ?]|(? & ? & ? & ?)]].
Qed.

Lemma init_type_error C (degree seed : pyval) (kw : gmap string pyval) msg :
  __init__ C degree seed kw = Raise (TypeError msg) →
  checked_degree (callee_exn := callee_exn) degree = Raise (TypeError msg).
Proof.
  unfold __init__, rbind, called.
  destruct (checked_degree degree) as [v|e]; [|by intros [= ->]].
  repeat case_match; intros; simplify_eq.
Qed.

(** C7.  [__init__] raises its [TypeError] exactly when [degree] is
    neither an int (a bool is one) nor a float with an integral value;
    an integer-valued float is taken as the int of the same value: the
    constructor does with it exactly what it does with that int. *)
Theorem C7_degree_type_check C (degree seed : pyval) (kw : gmap string pyval) :
  ((∃ msg, __init__ C degree seed kw = Raise (TypeError msg))
     ↔ ¬ DecomposerSpec.integral_degree degree)
  ∧ (¬ DecomposerSpec.integral_degree degree →
     __init__ C degree seed kw = Raise (TypeError (degree_message degree)))
  ∧ (∀ f z, degree = PyFloat f → DecomposerSpec.float_value f z →
       checked_degree (callee_exn := callee_exn) degree = Ok (PyInt z)
       ∧ __init__ C degree seed kw = __init__ C (PyInt z) seed kw).
Proof.
  destruct (checked_degree_spec degree) as [Hok Hbad].
  split; [split|split].
  - intros [msg Hmsg] Hint. apply init_type_error in Hmsg.
    destruct (Hok Hint) as [v Hv]. congruence.
  - intros Hn. exists (degree_message degree).
    unfold __init__. by rewrite (Hbad Hn).
  - intros Hn. unfold __init__. by rewrite (Hbad Hn).
  - intros f z -> Hz.
    assert (is_integer f = true) as Hf
      by (apply is_integer_float_value; by exists z).
    unfold __init__, checked_degree. simpl. rewrite Hf.
    by rewrite (int_of_float_value f z Hz).
Qed.

(** ** Running a method body *)

Lemma bind_run {A B} (c : M A) (k : A → M B) self :
  bind c k self
  = match c self with
    | (self', Ok a) => k a self'
    | (self', Raise e) => (self', Raise e)
    end.
Proof. reflexivity. Qed.

Lemma bind_ok {A B} (c : M A) (k : A → M B) self self' a :
  c self = (self', Ok a) → bind c k self = k a self'.
Proof. intros H. by rewrite bind_run, H. Qed.

Lemma bind_raise {A B} (c : M A) (k : A → M B) self self' e :
  c self = (self', Raise e) → bind c k self = (self', Raise e).
Proof. intros H. by rewrite bind_run, H. Qed.

(** Unfolds a method body down to the case analysis on what the callees
    return. *)
Ltac run_body :=
  unfold bind, call, lift, getattr, read, assign, local, floordiv, ret,
    raise in *;
  simpl in *.

(** ** The target [None] *)

(** C9.  [transform] accepts the target [None]: for every [X] and every
    decomposer, fitted or not, it returns [(X, None)] and changes
    nothing, where [fit] and [inverse_transform] raise their
    [ValueError]. *)
Theorem C9_transform_accepts_none C X self :
  transform C X None self = (self, Ok (X, None))
  ∧ fit C X None self = (self, Raise (ValueError y_none_message))
  ∧ inverse_transform C None self = (self, Raise (ValueError y_none_message)).
Proof. done. Qed.

(** A method body that never raises a [ValueError]: the bodies of
    [fit] and [inverse_transform] after their first test are such. *)
Definition no_value_error {A} (c : M A) : Prop :=
  ∀ self msg, (c self).2 ≠ Raise (ValueError msg).

Lemma nve_bind {A B} (c : M A) (k : A → M B) :
  no_value_error c → (∀ a, no_value_error (k a)) → no_value_error (bind c k).
Proof.
  intros Hc Hk self msg. rewrite bind_run.
  pose proof (Hc self msg) as Hc'.
  destruct (c self) as [self' [a|e]]; simpl in *; [apply Hk|].
  intros [= ->]. by apply Hc'.
Qed.

Lemma nve_ret {A} (a : A) : no_value_error (ret a).
Proof. by intros self msg. Qed.

Lemma nve_call {A} (c : callee A) : no_value_error (call c).
Proof. intros self msg. by destruct c. Qed.

Lemma nve_read {A} (field : PolynomialDecomposer → A) :
  no_value_error (read field).
Proof. by intros self msg. Qed.

Lemma nve_assign upd : no_value_error (assign upd).
Proof. by intros self msg. Qed.

Lemma nve_getattr {A} name (field : PolynomialDecomposer → option A) :
  no_value_error (getattr name field).
Proof. intros self msg. unfold getattr. by destruct (field self). Qed.

Lemma nve_local {A} name (v : option A) : no_value_error (local name v).
Proof. intros self msg. by destruct v. Qed.

Lemma nve_floordiv a b : no_value_error (floordiv a b).
Proof. intros self msg. by destruct b. Qed.

Lemma nve_raise {A} (e : exn) :
  (∀ msg, e ≠ ValueError msg) → no_value_error (raise (A := A) e).
Proof. intros He self msg [= Heq]. by apply (He msg). Qed.

Lemma nve_lift {A} (r : result A) :
  (∀ msg, r ≠ Raise (ValueError msg)) → no_value_error (lift r).
Proof. intros Hr self msg. apply Hr. Qed.

Lemma index_first_no_value_error (i : Index) msg :
  index_first (callee_exn := callee_exn) i ≠ Raise (ValueError msg).
Proof. by destruct i as [f [|t l]|[|t l]]. Qed.

Lemma label_sub_no_value_error (a b : label) msg :
  label_sub (callee_exn := callee_exn) a b ≠ Raise (ValueError msg).
Proof. by destruct a, b. Qed.

Lemma signal_index_no_value_error (s : seasonal_signal (num := num)) msg :
  signal_index (callee_exn := callee_exn) s ≠ Raise (ValueError msg).
Proof. by destruct s. Qed.

Lemma signal_T_values_no_value_error (s : seasonal_signal (num := num)) msg :
  signal_T_values (callee_exn := callee_exn) s ≠ Raise (ValueError msg).
Proof. by destruct s. Qed.

Ltac nve_step :=
  first
    [ apply nve_bind; [|intros ?]
    | apply nve_ret | apply nve_call | apply nve_read | apply nve_assign
    | apply nve_getattr | apply nve_local | apply nve_floordiv
    | apply nve_lift; intros ?;
      first [ apply index_first_no_value_error
            | apply label_sub_no_value_error
            | apply signal_index_no_value_error
            | apply signal_T_values_no_value_error ]
    | apply nve_raise; by intros ?
    | case_decide
    | case_match ].

Lemma first_ind_no_value_error (diff : difference) (period : Z)
    (delta_of : M Z) :
  no_value_error delta_of → no_value_error (first_ind diff period delta_of).
Proof.
  intros Hd. unfold first_ind. destruct diff; repeat nve_step. exact Hd.
Qed.

Lemma fit_some_no_value_error C X y : no_value_error (fit C X (Some y)).
Proof. unfold fit. repeat nve_step. Qed.

Lemma inverse_transform_some_no_value_error C y :
  no_value_error (inverse_transform C (Some y)).
Proof.
  unfold inverse_transform.
  repeat first [ apply first_ind_no_value_error | nve_step ].
Qed.

(** C5.  [fit] and [inverse_transform] raise their [ValueError] exactly
    when the target is [None], and they raise it at once, before
    anything is changed: on a target that is not [None] neither of them
    raises a [ValueError], whatever else happens in the callees. *)
Theorem C5_value_error_iff_none C X (y : option Series) self :
  ((∃ msg, (fit C X y self).2 = Raise (ValueError msg)) ↔ y = None)
  ∧ ((∃ msg, (inverse_transform C y self).2 = Raise (ValueError msg))
     ↔ y = None)
  ∧ (y = None →
     fit C X y self = (self, Raise (ValueError y_none_message))
     ∧ inverse_transform C y self
       = (self, Raise (ValueError y_none_message))).
Proof.
  destruct y as [y|].
  - split; [|split]; [split|split|done]; try done.
    + intros [msg H]. by apply fit_some_no_value_error in H.
    + intros [msg H]. by apply inverse_transform_some_no_value_error in H.
  - split; [|split]; [split|split|done]; try done.
    + intros _. by exists y_none_message.
    + intros _. by exists y_none_message.
Qed.

(** ** What [fit] leaves *)

(** A method body that assigns nothing to [self]. *)
Definition keeps_self {A} (c : M A) : Prop := ∀ self, (c self).1 = self.

Lemma keeps_bind {A B} (c : M A) (k : A → M B) :
  keeps_self c → (∀ a, keeps_self (k a)) → keeps_self (bind c k).
Proof.
  intros Hc Hk self. rewrite bind_run.
  pose proof (Hc self) as Hc'.
  destruct (c self) as [self' [a|e]]; simpl in *; subst self'; [apply Hk|done].
Qed.

Lemma keeps_ret {A} (a : A) : keeps_self (ret a).
Proof. by intros self. Qed.

Lemma keeps_raise {A} (e : exn) : keeps_self (raise (A := A) e).
Proof. by intros self. Qed.

Lemma keeps_call {A} (c : callee A) : keeps_self (call c).
Proof. intros self. by destruct c. Qed.

Lemma keeps_lift {A} (r : result A) : keeps_self (lift r).
Proof. by intros self. Qed.

Lemma keeps_read {A} (field : PolynomialDecomposer → A) :
  keeps_self (read field).
Proof. by intros self. Qed.

Lemma keeps_getattr {A} name (field : PolynomialDecomposer → option A) :
  keeps_self (getattr name field).
Proof. intros self. unfold getattr. by destruct (field self). Qed.

Lemma keeps_local {A} name (v : option A) : keeps_self (local name v).
Proof. intros self. by destruct v. Qed.

Lemma keeps_floordiv a b : keeps_self (floordiv a b).
Proof. intros self. by destruct b. Qed.

Ltac keeps_step :=
  first
    [ apply keeps_bind; [|intros ?]
    | apply keeps_ret | apply keeps_raise | apply keeps_call
    | apply keeps_lift | apply keeps_read | apply keeps_getattr
    | apply keeps_local | apply keeps_floordiv
    | case_decide
    | case_match ].

Lemma transform_keeps_self C X (y : option Series) :
  keeps_self (transform C X y).
Proof. unfold transform. repeat keeps_step. Qed.

Lemma inverse_transform_keeps_self C (y : option Series) :
  keeps_self (inverse_transform C y).
Proof.
  unfold inverse_transform, first_ind. repeat keeps_step.
Qed.

(** The attributes after a [fit] that returned, on a target whose index
    is a DatetimeIndex. *)
Lemma fit_datetime_inv C X y st0 st (y_dt : Series) f0 stamps0 :
  fit C X (Some y) st0 = (st, Ok tt) →
  infer_feature_types C y = inr y_dt →
  index y_dt = DatetimeIndex f0 stamps0 →
  ∃ d' p detrended seasonal,
    detrender_fit C (_component_obj st0) y_dt = inr d'
    ∧ freq_to_period C f0 = inr p
    ∧ detrender_transform C d' y_dt = inr detrended
    ∧ seasonal_decompose C detrended = inr seasonal
    ∧ st = {| parameters := parameters st0;
              random_seed := random_seed st0;
              _component_obj := d';
              frequency := Some f0;
              periodicity := Some p;
              seasonality := Some (SeasonalSeries (series_take p seasonal)) |}.
Proof.
  intros Hfit Hinf Hidx. unfold fit in Hfit. rewrite Hinf in Hfit.
  run_body. rewrite Hidx in Hfit.
  destruct (detrender_fit C (_component_obj st0) y_dt) as [e|d'] eqn:Hd;
    simpl in Hfit; [done|].
  destruct (freq_to_period C f0) as [e|p] eqn:Hp; simpl in Hfit; [done|].
  destruct (detrender_transform C d' y_dt) as [e|detrended] eqn:Ht;
    simpl in Hfit; [done|].
  destruct (seasonal_decompose C detrended) as [e|seasonal] eqn:Hs;
    simpl in Hfit; [done|].
  exists d', p, detrended, seasonal.
  repeat (split; [done|]). injection Hfit as <-. reflexivity.
Qed.

(** After a [fit] on another index only [seasonality] and the detrender
    have changed. *)
Lemma fit_other_inv C X y st0 st (y_dt : Series) labels :
  fit C X (Some y) st0 = (st, Ok tt) →
  infer_feature_types C y = inr y_dt →
  index y_dt = IntIndex labels →
  ∃ d',
    detrender_fit C (_component_obj st0) y_dt = inr d'
    ∧ st = {| parameters := parameters st0;
              random_seed := random_seed st0;
              _component_obj := d';
              frequency := frequency st0;
              periodicity := periodicity st0;
              seasonality := Some (SeasonalArray (np_zeros C (len y_dt))) |}.
Proof.
  intros Hfit Hinf Hidx. unfold fit in Hfit. rewrite Hinf in Hfit.
  run_body. rewrite Hidx in Hfit.
  destruct (detrender_fit C (_component_obj st0) y_dt) as [e|d'] eqn:Hd;
    simpl in Hfit; [done|].
  exists d'. split; [done|]. injection Hfit as <-. reflexivity.
Qed.

(** ** The frequency check of [transform] *)

Lemma nve_run {A} (c : M A) self msg :
  no_value_error c → (c self).2 ≠ Raise (ValueError msg).
Proof. intros H. apply H. Qed.

(** C6, as amended.  Let the decomposer be fitted on a series with a DatetimeIndex of
    frequency [f0], and let [y] have a DatetimeIndex of frequency [f].
    Then [transform] raises its [ValueError] if and only if [f] differs
    from [f0]; and a [transform] that raises, as every [transform],
    leaves the fitted state (frequency, periodicity, seasonality and the
    rest) as it was. *)
Theorem C6_frequency_mismatch C X0 y0 (y_dt : Series) f0 stamps0 st0 st
    X y f stamps :
  fit C X0 (Some y0) st0 = (st, Ok tt) →
  infer_feature_types C y0 = inr y_dt →
  index y_dt = DatetimeIndex f0 stamps0 →
  index y = DatetimeIndex f stamps →
  ((∃ msg, (transform C X (Some y) st).2 = Raise (ValueError msg)) ↔ f ≠ f0)
  ∧ (f ≠ f0 →
     transform C X (Some y) st
     = (st, Raise (ValueError (frequency_message f f0))))
  ∧ (transform C X (Some y) st).1 = st.
Proof.
  intros Hfit Hinf Hidx0 Hidx.
  destruct (fit_datetime_inv _ _ _ _ _ _ _ _ Hfit Hinf Hidx0)
    as (d' & p & detrended & seasonal & _ & _ & _ & _ & Hst).
  assert (frequency st = Some f0) as Hfreq by (by subst st).
  clear Hst Hfit.
  assert (f ≠ f0 →
          transform C X (Some y) st
          = (st, Raise (ValueError (frequency_message f f0)))) as Hraise.
  { intros Hne. unfold transform. rewrite Hidx.
    apply bind_raise. erewrite bind_ok;
      [|unfold getattr; rewrite Hfreq; reflexivity].
    by rewrite decide_True. }
  split; [split|split]; [| |done|apply transform_keeps_self].
  - intros [msg Hmsg] ->. revert Hmsg. unfold transform. rewrite Hidx.
    erewrite bind_ok; cycle 1.
    { erewrite bind_ok; [|unfold getattr; rewrite Hfreq; reflexivity].
      rewrite decide_False by (by intros H; apply H). reflexivity. }
    apply nve_run. repeat nve_step.
  - intros Hne. eexists. by rewrite (Hraise Hne).
Qed.

(** ** [inverse_transform] away from daily data *)

Lemma index_first_raise (i : Index) (e : exn (callee_exn := callee_exn)) :
  index_first i = Raise e → e = IndexError.
Proof. destruct i as [f [|t l]|[|t l]]; simpl; congruence. Qed.

Lemma label_sub_raise (a b : label) (e : exn (callee_exn := callee_exn)) :
  label_sub a b = Raise e → e = OperandError "-".
Proof. destruct a, b; simpl; congruence. Qed.

(** C10.  Let the decomposer be fitted on a series with a DatetimeIndex
    whose frequency is not ["D"].  Then [inverse_transform] returns for
    no target: the branch that assigns [delta] and [period] is not
    taken, and the first use of [period] raises the unbound-variable
    error.  That is the error raised on every target on which the
    statements before that use complete (the two callees return, the
    target is not empty and its index is a DatetimeIndex, as is that of
    the fitted seasonality); on the other targets one of those
    statements has raised before. *)
Theorem C10_inverse_transform_unbound_period C X0 y0 (y_dt : Series) f0
    stamps0 st0 st y :
  fit C X0 (Some y0) st0 = (st, Ok tt) →
  infer_feature_types C y0 = inr y_dt →
  index y_dt = DatetimeIndex f0 stamps0 →
  f0 ≠ Some "D" →
  (∃ e, inverse_transform C (Some y) st = (st, Raise e)
        ∧ (e = UnboundLocalError "period" ∨ e = IndexError
           ∨ e = OperandError "-" ∨ ∃ c, e = CalleeError c))
  ∧ (∀ (y_ww y_retrended : Series) a s b diff,
       infer_feature_types C y = inr y_ww →
       detrender_inverse_transform C (_component_obj st) y_ww
       = inr y_retrended →
       index_first (callee_exn := callee_exn) (index y_ww) = Ok a →
       seasonality st = Some (SeasonalSeries s) →
       index_first (callee_exn := callee_exn) (index s) = Ok b →
       label_sub (callee_exn := callee_exn) a b = Ok diff →
       inverse_transform C (Some y) st
       = (st, Raise (UnboundLocalError "period"))).
Proof.
  intros Hfit Hinf Hidx0 HnD.
  destruct (fit_datetime_inv _ _ _ _ _ _ _ _ Hfit Hinf Hidx0)
    as (d' & p & detrended & seasonal & _ & _ & _ & _ & Hst).
  clear Hfit. split.
  - subst st. unfold inverse_transform. run_body.
    destruct (infer_feature_types C y) as [c|y_ww]; simpl; [by eauto 10|].
    destruct (detrender_inverse_transform C d' y_ww) as [c|y_re]; simpl;
      [by eauto 10|].
    destruct (index_first (index y_ww)) as [a|e] eqn:Ha; simpl; cycle 1.
    { exists e. split; [done|]. right. left. by eapply index_first_raise. }
    destruct (index_first (index_take p (index seasonal))) as [b|e] eqn:Hb;
      simpl; cycle 1.
    { exists e. split; [done|]. right. left. by eapply index_first_raise. }
    destruct (label_sub a b) as [diff|e] eqn:Hdiff; simpl; cycle 1.
    { exists e. split; [done|]. right. right. left.
      by eapply label_sub_raise. }
    rewrite decide_False by done. simpl. eauto.
  - intros y_ww y_re a s b diff Hy Hre Ha Hs Hb Hdiff.
    subst st. simpl in Hs, Hre. injection Hs as <-.
    unfold inverse_transform. run_body.
    rewrite Hy. simpl. rewrite Hre. simpl. rewrite Ha. simpl.
    simpl in Hb. rewrite Hb. simpl. rewrite Hdiff. simpl.
    by rewrite decide_False by done.
Qed.

(** ** What [transform] returns *)

Lemma series_sub_same_length C (s : Series) (a : list num) :
  length (values s) = length a →
  series_sub C s a
  = inr {| index := index s; values := zip_with (nsub C) (values s) a |}.
Proof. intros H. unfold series_sub. by rewrite decide_True. Qed.

Lemma series_add_same_length C (s : Series) (a : list num) :
  length (values s) = length a →
  series_add C s a
  = inr {| index := index s; values := zip_with (nadd C) (values s) a |}.
Proof. intros H. unfold series_add. by rewrite decide_True. Qed.

Lemma pd_Series_same_index C (s : Series) (i : Index) :
  index s = i → pd_Series C s i = inr s.
Proof. intros H. unfold pd_Series. by rewrite decide_True. Qed.

Local Arguments Nat.div : simpl never.
Local Arguments firstn : simpl never.
Local Arguments np_tile : simpl never.
Local Arguments np_roll : simpl never.

(** C3.  After [fit], [transform] returns [X] as it was given, and as
    target the detrended series (what the fitted detrender makes of [y])
    minus a seasonal signal, under the index of [y]:
    - for a [y] whose index is not a DatetimeIndex, minus zeros;
    - for a [y] with a DatetimeIndex of the frequency of the fit, minus
      the first period of the seasonal component found by [fit], tiled
      to the length of [y].
    The detrender is taken to keep the index (and, for the zeros, the
    length) of the series it is given, and the fit to have seen at
    least one period. *)
Theorem C3_transform_target C X0 y0 st0 st X y (y_ww y_det : Series) :
  fit C X0 (Some y0) st0 = (st, Ok tt) →
  infer_feature_types C y = inr y_ww →
  detrender_transform C (_component_obj st) y_ww = inr y_det →
  index y_det = index y_ww →
  (∀ s, ww_init_double C s = inr tt) →
  (∀ labels,
     index y = IntIndex labels →
     len y_det = len y →
     transform C X (Some y) st
     = (st, Ok (X, Some {| index := index y_ww;
                           values := zip_with (nsub C) (values y_det)
                                       (replicate (len y) (nzero C)) |})))
  ∧ (∀ f stamps (y_dt0 detrended0 seasonal0 : Series) stamps0 p,
       index y = DatetimeIndex f stamps →
       infer_feature_types C y0 = inr y_dt0 →
       index y_dt0 = DatetimeIndex f stamps0 →
       freq_to_period C f = inr p →
       detrender_transform C (_component_obj st) y_dt0 = inr detrended0 →
       seasonal_decompose C detrended0 = inr seasonal0 →
       (0 < p ≤ len seasonal0)%nat →
       transform C X (Some y) st
       = (st, Ok (X, Some {| index := index y_ww;
                             values :=
                               zip_with (nsub C) (values y_det)
                                 (DecomposerSpec.tiled_to_length
                                    (take p (values seasonal0))
                                    (len y_det)) |}))).
Proof.
  intros Hfit Hinf Hdet Hidx Hww. split.
  - intros labels Hy Hlen. unfold transform. rewrite Hy. simpl.
    run_body. rewrite Hinf. simpl. rewrite Hdet. simpl.
    rewrite series_sub_same_length
      by (unfold np_zeros; rewrite length_replicate; exact Hlen).
    simpl. rewrite pd_Series_same_index by exact Hidx. simpl.
    rewrite Hww. simpl. by rewrite Hidx.
  - intros f stamps y_dt0 detrended0 seasonal0 stamps0 p
      Hy Hinf0 Hidx0 Hp Hdet0 Hseas [Hp0 Hple].
    destruct (fit_datetime_inv _ _ _ _ _ _ _ _ Hfit Hinf0 Hidx0)
      as (d' & p' & detrended & seasonal & _ & Hp' & Hdet' & Hseas' & Hst).
    subst st. simpl in Hdet0, Hdet.
    rewrite Hp in Hp'. injection Hp' as <-.
    rewrite Hdet' in Hdet0. injection Hdet0 as <-.
    rewrite Hseas' in Hseas. injection Hseas as <-.
    assert (length (take p (values seasonal)) = p) as Hper.
    { rewrite length_take. unfold len in Hple. lia. }
    assert (take (len y_det)
              (np_tile (take p (values seasonal)) (len y_det / p + 1))
            = DecomposerSpec.tiled_to_length (take p (values seasonal))
                (len y_det)) as Htile.
    { apply take_tile_tiled. rewrite Hper. by apply copies_cover. }
    unfold transform. rewrite Hy. simpl. run_body.
    rewrite decide_False by (by intros H; apply H). simpl.
    rewrite Hinf. simpl. rewrite Hdet. simpl.
    destruct p as [|p]; [lia|]. simpl.
    rewrite Htile.
    rewrite series_sub_same_length
      by (rewrite tiled_to_length_length; [done|rewrite Hper; lia]).
    simpl. rewrite pd_Series_same_index by exact Hidx. simpl.
    rewrite Hww. simpl. by rewrite Hidx.
Qed.

(** ** [transform] followed by [inverse_transform] *)

Lemma first_ind_same_start (t : Z) (period delta : Z) :
  Z.quot ((t - t) mod period) delta = 0.
Proof. rewrite Z.sub_diag, Zmod_0_l. by destruct delta. Qed.

Local Arguments timedelta_days : simpl never.
Local Arguments Z.of_nat : simpl never.
Local Arguments Z.quot : simpl never.
Local Arguments Z.modulo : simpl never.
Local Arguments Z.sub : simpl never.

(** C4, as amended.  Let [y] have a daily DatetimeIndex and let the
    decomposer be fitted on [y].  Then [transform] returns [y] minus the
    fitted trend minus the saved season tiled to the length of [y], and
    [inverse_transform] of that adds back the same trend and the same
    tiled season, under the index of [y]: the seasonal signal that
    [inverse_transform] adds is the one [transform] has removed (the saved
    period starts at the first index of [y], so it is rolled by 0).  The
    value at each position is [(((y - t) - s) + t) + s] in the arithmetic
    of the series; it is [y] where that arithmetic is exact, which is the
    last part of the statement and is not assumed for the rest.

    The callees are taken as documented: the detrender subtracts a trend
    that depends on the fitted state and on the index only, and adds the
    same trend back; [infer_feature_types] returns the series it is
    given; the seasonal component has the index and the length of the
    decomposed series; a period is positive. *)
Theorem C4_round_trip_up_to_rounding C (trend : detrender → Index → list num)
    X st0 st y stamps :
  (∀ s, infer_feature_types C s = inr s) →
  (∀ s, ww_init_double C s = inr tt) →
  (∀ d s, detrender_transform C d s
          = inr {| index := index s;
                   values := zip_with (nsub C) (values s)
                               (trend d (index s)) |}) →
  (∀ d s, detrender_inverse_transform C d s
          = inr {| index := index s;
                   values := zip_with (nadd C) (values s)
                               (trend d (index s)) |}) →
  (∀ d i, length (trend d i) = index_len i) →
  (∀ s r, seasonal_decompose C s = inr r →
          index r = index s ∧ len r = len s) →
  (∀ p, freq_to_period C (Some "D") = inr p → (0 < p)%nat) →
  index y = DatetimeIndex (Some "D") stamps →
  length stamps = len y →
  (0 < len y)%nat →
  fit C X (Some y) st0 = (st, Ok tt) →
  ∃ (saved : Series) (tr season : list num) (y_t : Series),
    seasonality st = Some (SeasonalSeries saved)
    ∧ tr = trend (_component_obj st) (index y)
    ∧ season = DecomposerSpec.tiled_to_length (values saved) (len y)
    ∧ length tr = len y
    ∧ length season = len y
    ∧ y_t = {| index := index y;
               values := zip_with (nsub C)
                           (zip_with (nsub C) (values y) tr) season |}
    ∧ transform C X (Some y) st = (st, Ok (X, Some y_t))
    ∧ inverse_transform C (Some y_t) st
      = (st, Ok {| index := index y;
                   values := zip_with (nadd C)
                               (zip_with (nadd C) (values y_t) tr)
                               season |})
    ∧ ((∀ a t s, nadd C (nadd C (nsub C (nsub C a t) s) t) s = a) →
       inverse_transform C (Some y_t) st = (st, Ok y)).
Proof.
  intros Hinf Hww Htr Hinv Htrend Hseas Hper Hidx Hstamps Hpos Hfit.
  destruct (fit_datetime_inv _ _ _ _ _ _ _ _ Hfit (Hinf y) Hidx)
    as (d' & p & detrended & seasonal & _ & Hp & Hdet & Hs & Hst).
  apply Hper in Hp. rewrite Htr in Hdet. injection Hdet as <-.
  apply Hseas in Hs as [Hsi Hsl]. simpl in Hsi.
  destruct y as [iy ys]. unfold len in *. simpl in *. subst iy.
  set (ts := trend d' (DatetimeIndex (Some "D") stamps)) in *.
  assert (length ts = length ys) as Hts
    by (unfold ts; rewrite Htrend; simpl; lia).
  rewrite length_zip_with, Hts, Nat.min_id in Hsl.
  set (sv := take p (values seasonal)).
  set (ss := take (length ys) (np_tile sv (length ys / p + 1))).
  pose proof (copies_of_prefix_cover (values seasonal) p Hp) as Hcover.
  rewrite Hsl in Hcover. fold sv in Hcover.
  assert (length ss = length ys) as Hss.
  { unfold ss. rewrite length_take, np_tile_length. lia. }
  assert (ss = DecomposerSpec.tiled_to_length sv (length ys)) as Htiled
    by (unfold ss; by apply take_tile_tiled).
  destruct stamps as [|t0 stamps]; [simpl in *; lia|].
  destruct p as [|p]; [lia|].
  set (y_t := {| index := DatetimeIndex (Some "D") (t0 :: stamps);
                 values := zip_with (nsub C) (zip_with (nsub C) ys ts) ss |}).
  assert (inverse_transform C (Some y_t) st
          = (st, Ok {| index := DatetimeIndex (Some "D") (t0 :: stamps);
                       values := zip_with (nadd C)
                                   (zip_with (nadd C) (values y_t) ts) ss |}))
    as Hback.
  { subst st. unfold inverse_transform. run_body.
    rewrite Hinf. simpl. rewrite Hinv. simpl. rewrite Hsi. simpl.
    unfold first_ind. run_body.
    rewrite first_ind_same_start, np_roll_0.
    unfold len. simpl. fold sv. fold ts.
    assert (length (zip_with (nsub C) (zip_with (nsub C) ys ts) ss)
            = length ys) as Hyt
      by (rewrite !length_zip_with, Hts, Hss; lia).
    rewrite Hyt. fold ss.
    rewrite series_add_same_length
      by (simpl; rewrite length_zip_with, Hyt, Hts, Hss; lia).
    simpl. rewrite pd_Series_same_index by done. simpl.
    by rewrite Hinf. }
  exists (series_take (S p) seasonal), ts, ss, y_t.
  split; [by subst st|]. split; [by subst st|].
  split; [exact Htiled|]. split; [exact Hts|]. split; [exact Hss|].
  split; [done|]. split; [|split; [exact Hback|]].
  - subst st. unfold transform. simpl. run_body.
    rewrite Hinf. simpl. rewrite Htr. simpl.
    unfold len. simpl. fold ts. rewrite length_zip_with, Hts, Nat.min_id.
    fold sv. fold ss.
    rewrite series_sub_same_length
      by (simpl; rewrite length_zip_with, Hts, Hss; lia).
    simpl. rewrite pd_Series_same_index by done. simpl.
    by rewrite Hww.
  - intros Hexact. etrans; [exact Hback|]. simpl.
    by rewrite (add_back_removed _ _ ys ts ss Hexact Hts Hss).
Qed.

End DecomposerFacts.

(** ** The theorems on concrete series *)

Import DecomposerDemo.

(** C7 on [2.0] (the float [1 * 2^1]): accepted, as the int [2]. *)
Lemma C7_witness :
  DecomposerSpec.float_value (S754_finite false 1 1) 2
  ∧ __init__ demo (PyFloat (S754_finite false 1 1)) (PyInt 0) ∅
    = __init__ demo (PyInt 2) (PyInt 0) ∅.
Proof.
  split; [reflexivity|].
  destruct (C7_degree_type_check demo
              (PyFloat (S754_finite false 1 1)) (PyInt 0) ∅) as (_ & _ & H).
  apply (H (S754_finite false 1 1) 2); reflexivity.
Defined.

(** C5 on the target [None]. *)
Lemma C5_witness :
  fit demo tt None fresh = (fresh, Raise (ValueError y_none_message))
  ∧ inverse_transform demo None fresh
    = (fresh, Raise (ValueError y_none_message)).
Proof.
  destruct (C5_value_error_iff_none demo tt None fresh) as (_ & _ & H).
  apply H. reflexivity.
Defined.

Lemma fit_two_weeks : fit demo tt (Some two_weeks) fresh = (fitted_daily, Ok tt).
Proof. reflexivity. Qed.

Lemma fit_two_days_of_hours :
  fit demo tt (Some two_days_of_hours) fresh = (fitted_hourly, Ok tt).
Proof. reflexivity. Qed.

(** C6: a decomposer fitted on daily data, given hourly data. *)
Lemma C6_witness :
  fit demo tt (Some two_weeks) fresh = (fitted_daily, Ok tt)
  ∧ transform demo tt (Some three_hours) fitted_daily
    = (fitted_daily,
       Raise (ValueError (frequency_message (Some "H") (Some "D")))).
Proof.
  split; [reflexivity|].
  destruct (C6_frequency_mismatch demo tt two_weeks two_weeks (Some "D")
              _ fresh fitted_daily tt three_hours (Some "H") _
              fit_two_weeks eq_refl eq_refl eq_refl) as (_ & H & _).
  apply H. discriminate.
Defined.

(** C10: a decomposer fitted on hourly data, asked to invert three hours. *)
Lemma C10_witness :
  fit demo tt (Some two_days_of_hours) fresh = (fitted_hourly, Ok tt)
  ∧ Some "H" ≠ Some "D"
  ∧ inverse_transform demo (Some three_hours) fitted_hourly
    = (fitted_hourly, Raise (UnboundLocalError "period")).
Proof.
  split; [reflexivity|]. split; [discriminate|].
  destruct (C10_inverse_transform_unbound_period demo tt two_days_of_hours
              two_days_of_hours (Some "H") _ fresh fitted_hourly three_hours
              fit_two_days_of_hours eq_refl eq_refl ltac:(discriminate))
    as [_ H].
  eapply H; reflexivity.
Defined.

(** C3: a decomposer fitted on two weeks of daily data, transforming the
    same two weeks and a series without dates. *)
Lemma C3_witness :
  transform demo tt (Some two_weeks) fitted_daily
  = (fitted_daily,
     Ok (tt, Some {| index := daily 14;
                     values := [0; 0; 0; 0; 0; 0; 0; 0; 0; 0; 0; 0; 0; 1] |}))
  ∧ transform demo tt (Some unindexed) fitted_daily
    = (fitted_daily,
       Ok (tt, Some {| index := IntIndex [0; 1; 2]; values := [4; 4; 4] |})).
Proof.
  split.
  - destruct (C3_transform_target demo tt two_weeks fresh fitted_daily tt
                two_weeks two_weeks _ fit_two_weeks eq_refl eq_refl eq_refl
                (λ _, eq_refl)) as [_ H].
    rewrite (H (Some "D") _ two_weeks _ _ _ 7%nat eq_refl eq_refl eq_refl
               eq_refl eq_refl eq_refl ltac:(vm_compute; lia)).
    reflexivity.
  - destruct (C3_transform_target demo tt two_weeks fresh fitted_daily tt
                unindexed unindexed _ fit_two_weeks eq_refl eq_refl eq_refl
                (λ _, eq_refl)) as [H _].
    rewrite (H _ eq_refl eq_refl). reflexivity.
Defined.

(** C10 as the claim has it fails on a target without dates: the
    difference of its first index and a timestamp is not defined, and that
    raises before [period] is used. *)
Lemma C10_not_on_every_target :
  fit demo tt (Some two_days_of_hours) fresh = (fitted_hourly, Ok tt)
  ∧ inverse_transform demo (Some unindexed) fitted_hourly
    = (fitted_hourly, Raise (OperandError "-"))
  ∧ (inverse_transform demo (Some unindexed) fitted_hourly).2
    ≠ Raise (UnboundLocalError "period").
Proof. split; [reflexivity|]. split; [reflexivity|discriminate]. Qed.

Lemma binary64_seasonal_shape (t s : spec_float)
    (y r : Series (num := spec_float)) :
  seasonal_decompose (Binary64Demo.binary64_callees t s) y = inr r →
  index r = index y ∧ len r = len y.
Proof.
  intros [= <-]. split; [done|]. unfold len. simpl. apply length_fmap.
Qed.

(** C4 in binary64, on two weeks of [0.1] with a trend of [0.2] and a
    seasonal value of [0.3]: what comes back is
    [(((0.1 - 0.2) - 0.3) + 0.2) + 0.3] at every position. *)
Lemma C4_witness :
  ∃ y_t,
    transform
      (Binary64Demo.binary64_callees Binary64Demo.f0_2 Binary64Demo.f0_3)
      tt (Some Binary64Demo.tenths) Binary64Demo.fitted64
    = (Binary64Demo.fitted64, Ok (tt, Some y_t))
    ∧ inverse_transform
        (Binary64Demo.binary64_callees Binary64Demo.f0_2 Binary64Demo.f0_3)
        (Some y_t) Binary64Demo.fitted64
      = (Binary64Demo.fitted64,
         Ok {| index := daily 14;
               values :=
                 replicate 14
                   (Binary64Demo.float_add
                      (Binary64Demo.float_add
                         (Binary64Demo.float_sub
                            (Binary64Demo.float_sub Binary64Demo.f0_1
                               Binary64Demo.f0_2)
                            Binary64Demo.f0_3)
                         Binary64Demo.f0_2)
                      Binary64Demo.f0_3) |}).
Proof.
  destruct (C4_round_trip_up_to_rounding
              (Binary64Demo.binary64_callees Binary64Demo.f0_2
                 Binary64Demo.f0_3)
              Binary64Demo.constant_trend tt Binary64Demo.fresh64
              Binary64Demo.fitted64 Binary64Demo.tenths
              ((λ k, k * day) <$> seqZ 0 14))
    as (saved & tr & season & y_t & Hs & -> & -> & _ & _ & -> & Ht & Hb & _).
  - reflexivity.
  - reflexivity.
  - reflexivity.
  - reflexivity.
  - intros d i. apply length_replicate.
  - apply binary64_seasonal_shape.
  - intros p [= <-]. lia.
  - reflexivity.
  - reflexivity.
  - vm_compute. lia.
  - reflexivity.
  - eexists. split; [exact Ht|]. rewrite Hb.
    vm_compute in Hs. injection Hs as <-. vm_compute. reflexivity.
Defined.

(** C4 as the claim has it fails in binary64: with a trend of [0.2] and a
    seasonal value of [0.3], two weeks of [0.1] come back from
    [transform] and [inverse_transform] as
    [(((0.1 - 0.2) - 0.3) + 0.2) + 0.3], which is
    [7205759403792792 * 2^-56] and not [0.1 = 7205759403792794 * 2^-56]. *)
Lemma C4_not_exact_in_binary64 :
  fit (Binary64Demo.binary64_callees Binary64Demo.f0_2 Binary64Demo.f0_3) tt
    (Some Binary64Demo.tenths) Binary64Demo.fresh64
  = (Binary64Demo.fitted64, Ok tt)
  ∧ ∃ y_t back,
      transform
        (Binary64Demo.binary64_callees Binary64Demo.f0_2 Binary64Demo.f0_3)
        tt (Some Binary64Demo.tenths) Binary64Demo.fitted64
      = (Binary64Demo.fitted64, Ok (tt, Some y_t))
      ∧ inverse_transform
          (Binary64Demo.binary64_callees Binary64Demo.f0_2 Binary64Demo.f0_3)
          (Some y_t) Binary64Demo.fitted64
        = (Binary64Demo.fitted64, Ok back)
      ∧ index back = index Binary64Demo.tenths
      ∧ values back
        = replicate 14 (S754_finite false 7205759403792792 (-56))
      ∧ back ≠ Binary64Demo.tenths.
Proof.
  split; [reflexivity|].
  eexists. eexists. split; [vm_compute; reflexivity|].
  split; [vm_compute; reflexivity|].
  split; [reflexivity|]. split; [reflexivity|].
  intros H. apply (f_equal values) in H. vm_compute in H. discriminate H.
Qed.

(** C6 as the claim has it fails for a decomposer fitted on a series
    without dates: [fit] has then assigned no [frequency], and
    [transform] raises the [AttributeError] on hourly and on daily data
    alike, so whatever the frequency of the fitted series is taken to be,
    one of the two differs from it without a [ValueError]. *)
Lemma C6_not_after_a_fit_without_dates :
  ∃ st,
    fit demo tt (Some unindexed) fresh = (st, Ok tt)
    ∧ transform demo tt (Some three_hours) st
      = (st, Raise (AttributeError "frequency"))
    ∧ transform demo tt (Some two_weeks) st
      = (st, Raise (AttributeError "frequency"))
    ∧ (∀ msg, (transform demo tt (Some three_hours) st).2
              ≠ Raise (ValueError msg))
    ∧ (∀ msg, (transform demo tt (Some two_weeks) st).2
              ≠ Raise (ValueError msg)).
Proof.
  eexists. split; [reflexivity|].
  split; [reflexivity|]. split; [reflexivity|].
  split; intros msg; discriminate.
Qed.

End DecomposerFacts.

(* ===================================================================== *)
(** * Part VI: the polynomial decomposer, further properties              *)
(* ===================================================================== *)

Module DecomposerMore.

Import Decomposer DecomposerFacts.

Section DecomposerMore.

Context {num features detrender callee_exn : Type}.

Local Abbreviation Callees :=
  (Callees (num := num) (detrender := detrender) (callee_exn := callee_exn)).
Local Abbreviation PolynomialDecomposer :=
  (PolynomialDecomposer (num := num) (detrender := detrender)).
Local Abbreviation Series := (Series (num := num)).
Local Abbreviation M :=
  (M (num := num) (detrender := detrender) (callee_exn := callee_exn)).

Implicit Types (C : Callees) (self st : PolynomialDecomposer)
  (X : features) (y : Series) (d : detrender).

Ltac unfold_body :=
  unfold bind, call, lift, getattr, read, assign, local, floordiv, ret,
    raise in *;
  simpl in *.

Ltac nve_more :=
  repeat first
    [ apply nve_bind; [|intros ?]
    | apply nve_ret | apply nve_call | apply nve_read | apply nve_assign
    | apply nve_getattr | apply nve_local | apply nve_floordiv
    | case_decide
    | case_match ].

(** ** The constructor *)

(** X5.  The degree that [__init__] stores, when it returns: the
    parameter ["degree"], and the degree the detrender is built with, are
    the given [degree] itself when it is an int (or a bool), and the int
    of the same value when it is a float; it is one of the two.  Every
    other keyword argument is stored as a parameter under its name. *)
Theorem init_stores_the_checked_degree C (degree seed : pyval)
    (kw : gmap string pyval) st :
  __init__ C degree seed kw = Ok st →
  kw !! "degree" = None →
  ∃ v, parameters st !! "degree" = Some v
       ∧ _component_obj st = new_detrender C v
       ∧ (isinstance_int degree = true ∧ v = degree
          ∨ ∃ f z, degree = PyFloat f ∧ DecomposerSpec.float_value f z
                   ∧ v = PyInt z)
       ∧ (∀ k x, kw !! k = Some x → parameters st !! k = Some x).
Proof.
  unfold __init__, rbind, called. intros Hst Hkw.
  destruct (checked_degree (callee_exn := callee_exn) degree) as [v|e]
    eqn:Hv; [|done].
  assert (st = {| parameters := kw ∪ {["degree" := v]};
                  random_seed := seed;
                  _component_obj := new_detrender C v;
                  frequency := None; periodicity := None;
                  seasonality := None |}) as ->
    by (repeat case_match; simplify_eq; done).
  exists v. simpl. split; [|split; [done|split]].
  - rewrite lookup_union_r by done. apply lookup_singleton_eq.
  - unfold checked_degree in Hv.
    destruct degree as [z|b|f|s| |n]; simpl in Hv; simplify_eq;
      try (left; done).
    destruct (is_integer f) eqn:Hf; simplify_eq. right.
    apply is_integer_float_value in Hf as [z Hz].
    exists f, z. by rewrite (int_of_float_value f z Hz).
  - intros k x Hk. by apply lookup_union_Some_l.
Qed.

(** ** [fit] *)

(** X6.  [fit] is not atomic.  When [infer_feature_types] raises, nothing
    has changed.  When the frequency of a DatetimeIndex is one that
    [freq_to_period] rejects, [fit] raises with the detrender already
    refitted and [frequency] already assigned, while [periodicity] and
    [seasonality] are still those of the previous fit (or missing).  When
    [seasonal_decompose] raises, [periodicity] has been assigned too. *)
Theorem fit_failure_leaves_partial_state C X y self :
  (∀ e, infer_feature_types C y = inl e →
        fit C X (Some y) self = (self, Raise (CalleeError e)))
  ∧ (∀ (y_dt : Series) d' f stamps e,
       infer_feature_types C y = inr y_dt →
       detrender_fit C (_component_obj self) y_dt = inr d' →
       index y_dt = DatetimeIndex f stamps →
       freq_to_period C f = inl e →
       fit C X (Some y) self
       = ({| parameters := parameters self;
             random_seed := random_seed self;
             _component_obj := d';
             frequency := Some f;
             periodicity := periodicity self;
             seasonality := seasonality self |}, Raise (CalleeError e)))
  ∧ (∀ (y_dt detrended : Series) d' f stamps p e,
       infer_feature_types C y = inr y_dt →
       detrender_fit C (_component_obj self) y_dt = inr d' →
       index y_dt = DatetimeIndex f stamps →
       freq_to_period C f = inr p →
       detrender_transform C d' y_dt = inr detrended →
       seasonal_decompose C detrended = inl e →
       fit C X (Some y) self
       = ({| parameters := parameters self;
             random_seed := random_seed self;
             _component_obj := d';
             frequency := Some f;
             periodicity := Some p;
             seasonality := seasonality self |}, Raise (CalleeError e))).
Proof.
  split; [|split].
  - intros e He. unfold fit. unfold_body. by rewrite He.
  - intros y_dt d' f stamps e Hinf Hfit Hidx Hp. unfold fit. unfold_body.
    rewrite Hinf. simpl. rewrite Hfit. simpl. rewrite Hidx.
    by rewrite Hp.
  - intros y_dt detrended d' f stamps p e Hinf Hfit Hidx Hp Hdet Hs.
    unfold fit. unfold_body.
    rewrite Hinf. simpl. rewrite Hfit. simpl. rewrite Hidx.
    rewrite Hp. simpl. rewrite Hdet. simpl. by rewrite Hs.
Qed.

(** X7.  After a [fit] on a series whose index is not a DatetimeIndex,
    [frequency] and [periodicity] are what they were before (missing, or
    left from an earlier fit) and [seasonality] is a numpy array of zeros,
    one per element of the series.  [inverse_transform] then returns for
    no target: where its first statements complete, reading the index of
    the saved seasonality raises the [AttributeError]. *)
Theorem fit_without_dates_breaks_inverse_transform C X0 y0 (y_dt : Series)
    labels st0 st :
  fit C X0 (Some y0) st0 = (st, Ok tt) →
  infer_feature_types C y0 = inr y_dt →
  index y_dt = IntIndex labels →
  frequency st = frequency st0
  ∧ periodicity st = periodicity st0
  ∧ seasonality st = Some (SeasonalArray (replicate (len y_dt) (nzero C)))
  ∧ ∀ y,
      (∀ r, (inverse_transform C (Some y) st).2 ≠ Ok r)
      ∧ (∀ (y_ww y_retrended : Series) a,
           infer_feature_types C y = inr y_ww →
           detrender_inverse_transform C (_component_obj st) y_ww
           = inr y_retrended →
           index_first (callee_exn := callee_exn) (index y_ww) = Ok a →
           inverse_transform C (Some y) st
           = (st, Raise (AttributeError "index"))).
Proof.
  intros Hfit Hinf Hidx.
  destruct (fit_other_inv _ _ _ _ _ _ _ Hfit Hinf Hidx) as (d' & _ & ->).
  simpl. repeat split.
  - intros r. unfold inverse_transform. unfold_body.
    destruct (infer_feature_types C y) as [c|y_ww]; simpl; [done|].
    destruct (detrender_inverse_transform C d' y_ww) as [c|y_re]; simpl;
      [done|].
    by destruct (index_first (index y_ww)).
  - intros y_ww y_re a Hy Hre Ha. unfold inverse_transform. unfold_body.
    rewrite Hy. simpl. rewrite Hre. simpl. by rewrite Ha.
Qed.

(** ** [fit_transform] *)

Lemma fit_returned_inferred C X y self st :
  fit C X (Some y) self = (st, Ok tt) →
  ∃ y_dt : Series, infer_feature_types C y = inr y_dt.
Proof.
  unfold fit. unfold_body.
  destruct (infer_feature_types C y) as [e|y_dt]; [done|]. by eexists.
Qed.

Lemma transform_rest_no_value_error C X y self f :
  frequency self = Some f →
  (∀ f' stamps, index y = DatetimeIndex f' stamps → f' = f) →
  ∀ msg, (transform C X (Some y) self).2 ≠ Raise (ValueError msg).
Proof.
  intros Hf Hy msg. unfold transform.
  destruct (index y) as [f' stamps|labels] eqn:Hidx.
  - assert (f' = f) as -> by (by eapply Hy).
    erewrite bind_ok; cycle 1.
    { erewrite bind_ok; [|unfold getattr; rewrite Hf; reflexivity].
      rewrite decide_False by (by intros H; apply H). reflexivity. }
    apply nve_run. nve_more.
  - erewrite bind_ok; [|reflexivity]. apply nve_run. nve_more.
Qed.

(** X8.  [fit_transform] is [fit] followed by [transform] on the same
    arguments.  So it raises the [ValueError] of [fit] on the target
    [None], which [transform] alone accepts.  On a target that is not
    [None] it raises neither of the two [ValueError]s of the module's own
    [raise] statements (the missing target of [fit], the frequency
    mismatch of [transform]): the frequency that [transform] checks is
    the one [fit] has just saved, for an [infer_feature_types] that keeps
    the index.  What a callee raises ([seasonal_decompose] on a series
    shorter than two periods, for one) is not such a [ValueError] here; it
    is passed on as it is, with the decomposer as [fit] left it. *)
Theorem fit_transform_composes C X (y : option Series) self :
  fit_transform C X None self = (self, Raise (ValueError y_none_message))
  ∧ (∀ st, fit C X y self = (st, Ok tt) →
           fit_transform C X y self = transform C X y st)
  ∧ (∀ st e, fit C X y self = (st, Raise e) →
             fit_transform C X y self = (st, Raise e))
  ∧ ((∀ s s' : Series, infer_feature_types C s = inr s' → index s' = index s) →
     ∀ y' msg, y = Some y' →
               (fit_transform C X y self).2 ≠ Raise (ValueError msg)).
Proof.
  split; [done|]. split; [|split].
  - intros st Hfit. unfold fit_transform. by erewrite bind_ok.
  - intros st e Hfit. unfold fit_transform. by erewrite bind_raise.
  - intros Hkeep y' msg ->. unfold fit_transform. rewrite bind_run.
    destruct (fit C X (Some y') self) as [st [[]|e]] eqn:Hfit.
    + destruct (fit_returned_inferred _ _ _ _ _ Hfit) as [y_dt Hinf].
      pose proof (Hkeep _ _ Hinf) as Hidx.
      destruct (index y') as [f stamps|labels] eqn:Hy.
      * destruct (fit_datetime_inv _ _ _ _ _ _ _ _ Hfit Hinf Hidx)
          as (d' & p & detrended & seasonal & _ & _ & _ & _ & ->).
        apply (transform_rest_no_value_error _ _ _ _ f); [done|].
        intros f' stamps' Hf'. rewrite Hy in Hf'. congruence.
      * destruct (fit_other_inv _ _ _ _ _ _ _ Hfit Hinf Hidx)
          as (d' & _ & ->).
        unfold transform. rewrite Hy.
        erewrite bind_ok; [|reflexivity]. apply nve_run. nve_more.
    + simpl. intros [= ->].
      pose proof (fit_some_no_value_error C X y' self msg) as H.
      by rewrite Hfit in H.
Qed.

(** ** The season that [inverse_transform] adds *)

Lemma np_roll_neg {A} (a : list A) (k : nat) :
  (k < length a)%nat → np_roll a (- Z.of_nat k) = drop k a ++ take k a.
Proof.
  intros Hk. unfold np_roll.
  destruct (length a) as [|n] eqn:Hn; [lia|]. rewrite <- Hn.
  destruct (decide (k = 0)%nat) as [->|Hk0].
  - simpl. rewrite Z.mod_0_l by lia. simpl Z.to_nat.
    rewrite Nat.sub_0_r, drop_all, take_ge by lia.
    by rewrite drop_0, take_0, app_nil_r.
  - assert ((- Z.of_nat k) mod Z.of_nat (length a)
            = Z.of_nat (length a) - Z.of_nat k) as ->.
    { symmetry. apply (Z.mod_unique _ _ (-1)); lia. }
    replace (length a - Z.to_nat (Z.of_nat (length a) - Z.of_nat k))%nat
      with k by lia.
    done.
Qed.

Lemma lookup_roll {A} (a : list A) (k j : nat) :
  (k < length a)%nat → (j < length a)%nat →
  (drop k a ++ take k a) !! j = a !! ((j + k) mod length a)%nat.
Proof.
  intros Hk Hj.
  destruct (decide (j < length a - k)%nat) as [Hlt|Hge].
  - rewrite lookup_app_l by (rewrite length_drop; lia).
    rewrite lookup_drop, Nat.mod_small by lia. f_equal. lia.
  - rewrite lookup_app_r by (rewrite length_drop; lia).
    rewrite length_drop, lookup_take_lt by lia. f_equal.
    replace (j + k)%nat with ((j + k - length a) + 1 * length a)%nat by lia.
    rewrite Nat.Div0.mod_add, Nat.mod_small by lia. lia.
Qed.

Lemma omap_seq_ext {A} (f g : nat → option A) (start n : nat) :
  (∀ i, f i = g i) → omap f (seq start n) = omap g (seq start n).
Proof.
  intros Hfg. revert start. induction n as [|n IH]; intros start; [done|].
  simpl. by rewrite Hfg, IH.
Qed.

(** The rolled and tiled signal of the code is the saved signal continued
    from its element [k]. *)
Lemma take_tile_roll {A} (sv : list A) (k q n : nat) :
  (k < length sv)%nat → (n ≤ q * length sv)%nat →
  take n (np_tile (np_roll sv (- Z.of_nat k)) q)
  = SeasonSpec.continued_from sv k n.
Proof.
  intros Hk Hn. rewrite np_roll_neg by done.
  assert (length (drop k sv ++ take k sv) = length sv) as Hlen
    by (rewrite length_app, length_drop, length_take; lia).
  rewrite take_tile_tiled by (rewrite Hlen; done).
  unfold DecomposerSpec.tiled_to_length, SeasonSpec.continued_from.
  apply omap_seq_ext. intros i. rewrite Hlen.
  rewrite lookup_roll by (done || apply Nat.mod_upper_bound; lia).
  by rewrite Nat.Div0.add_mod_idemp_l.
Qed.

Lemma first_ind_bounds (x : Z) (p : nat) :
  (0 < p)%nat →
  0 ≤ (x mod timedelta_days (Z.of_nat p)) ÷ timedelta_days 1 < Z.of_nat p.
Proof.
  intros Hp. unfold timedelta_days.
  pose proof (Z.mod_pos_bound x (Z.of_nat p * 86400000000000) ltac:(lia))
    as [Hlo Hhi].
  rewrite Z.quot_div_nonneg by lia. split.
  - apply Z.div_pos; lia.
  - apply Z.div_lt_upper_bound; lia.
Qed.

Local Arguments timedelta_days : simpl never.
Local Arguments Z.of_nat : simpl never.
Local Arguments Z.to_nat : simpl never.
Local Arguments Z.quot : simpl never.
Local Arguments Z.modulo : simpl never.
Local Arguments Z.sub : simpl never.
Local Arguments Nat.div : simpl never.
Local Arguments firstn : simpl never.
Local Arguments np_tile : simpl never.
Local Arguments np_roll : simpl never.

Lemma inverse_transform_daily_run C st y (y_re s : Series)
    f fs t0 ts ts0 tss p :
  frequency st = Some (Some "D") →
  periodicity st = Some p →
  (0 < p)%nat →
  seasonality st = Some (SeasonalSeries s) →
  length (values s) = p →
  index s = DatetimeIndex fs (ts0 :: tss) →
  (∀ s' : Series, infer_feature_types C s' = inr s') →
  detrender_inverse_transform C (_component_obj st) y = inr y_re →
  index y = DatetimeIndex f (t0 :: ts) →
  index y_re = index y →
  len y_re = len y →
  inverse_transform C (Some y) st
  = (st, Ok {| index := index y;
               values :=
                 zip_with (nadd C) (values y_re)
                   (SeasonSpec.continued_from (values s)
                      (Z.to_nat (((t0 - ts0) mod timedelta_days (Z.of_nat p))
                                 ÷ timedelta_days 1))
                      (len y)) |}).
Proof.
  intros Hf Hp Hp0 Hs Hsl Hsi Hinf Hre Hy Hire Hlre.
  pose proof (first_ind_bounds (t0 - ts0) p Hp0) as [Hlo Hhi].
  set (kz := ((t0 - ts0) mod timedelta_days (Z.of_nat p))
             ÷ timedelta_days 1) in *.
  assert (take (len y)
            (np_tile (np_roll (values s) (- kz)) (len y / p + 1))
          = SeasonSpec.continued_from (values s) (Z.to_nat kz) (len y))
    as Htile.
  { rewrite <- (Z2Nat.id kz) at 1 by lia.
    apply take_tile_roll; [lia|]. rewrite Hsl. by apply copies_cover. }
  assert (length (SeasonSpec.continued_from (values s) (Z.to_nat kz) (len y))
          = len y) as Hlen.
  { rewrite <- Htile, length_take, np_tile_length.
    rewrite <- (Z2Nat.id kz) at 1 by lia.
    rewrite np_roll_neg, length_app, length_drop, length_take by lia.
    pose proof (copies_cover (len y) p Hp0). nia. }
  assert (timedelta_days (Z.of_nat p) ≠ 0) as Hper
    by (unfold timedelta_days; lia).
  assert (timedelta_days 1 ≠ 0) as Hdelta by (unfold timedelta_days; lia).
  unfold inverse_transform, first_ind. unfold_body.
  rewrite Hinf. simpl. rewrite Hre. simpl. rewrite Hy. simpl.
  rewrite Hs. simpl. rewrite Hsi. simpl. rewrite Hf. simpl.
  rewrite Hp. simpl.
  rewrite (decide_False (P := timedelta_days (Z.of_nat p) = 0)) by done.
  simpl.
  rewrite Hs. simpl. rewrite Hp. simpl.
  destruct p as [|p']; [lia|]. simpl. fold kz. rewrite Htile.
  rewrite series_add_same_length by (rewrite Hlen; exact Hlre).
  simpl. rewrite pd_Series_same_index by (by rewrite <- Hy).
  simpl. rewrite Hinf. simpl. by rewrite Hire, Hy.
Qed.

(** X9.  On daily data [inverse_transform] adds the saved season in
    phase with the dates: if the first date of [y] is [k] whole days
    (modulo the period) after the first date of the saved season, the
    value added at position [i] is the element [(i + k) mod p] of the
    saved season.  Here the decomposer holds a full period of a fit on
    daily data, [infer_feature_types] returns the series it is given and
    the detrender keeps index and length. *)
Theorem inverse_transform_adds_season_in_phase C st y (y_re s : Series)
    f fs t0 ts ts0 tss p :
  frequency st = Some (Some "D") →
  periodicity st = Some p →
  (0 < p)%nat →
  seasonality st = Some (SeasonalSeries s) →
  length (values s) = p →
  index s = DatetimeIndex fs (ts0 :: tss) →
  (∀ s' : Series, infer_feature_types C s' = inr s') →
  detrender_inverse_transform C (_component_obj st) y = inr y_re →
  index y = DatetimeIndex f (t0 :: ts) →
  index y_re = index y →
  len y_re = len y →
  inverse_transform C (Some y) st
  = (st, Ok {| index := index y;
               values :=
                 zip_with (nadd C) (values y_re)
                   (SeasonSpec.continued_from (values s)
                      (Z.to_nat (((t0 - ts0) mod timedelta_days (Z.of_nat p))
                                 ÷ timedelta_days 1))
                      (len y)) |}).
Proof. apply inverse_transform_daily_run. Qed.

(** ** [transform] and [inverse_transform] on other daily series *)

Lemma transform_datetime_run C X st y (y_det s : Series) f stamps p :
  frequency st = Some f →
  periodicity st = Some p →
  (0 < p)%nat →
  seasonality st = Some (SeasonalSeries s) →
  length (values s) = p →
  (∀ s' : Series, infer_feature_types C s' = inr s') →
  (∀ s' : Series, ww_init_double C s' = inr tt) →
  detrender_transform C (_component_obj st) y = inr y_det →
  index y = DatetimeIndex f stamps →
  index y_det = index y →
  transform C X (Some y) st
  = (st, Ok (X, Some {| index := index y;
                        values :=
                          zip_with (nsub C) (values y_det)
                            (DecomposerSpec.tiled_to_length (values s)
                               (len y_det)) |})).
Proof.
  intros Hf Hp Hp0 Hs Hsl Hinf Hww Hdet Hy Hidet.
  assert (take (len y_det) (np_tile (values s) (len y_det / p + 1))
          = DecomposerSpec.tiled_to_length (values s) (len y_det)) as Htile.
  { apply take_tile_tiled. rewrite Hsl. by apply copies_cover. }
  unfold transform. rewrite Hy. unfold_body. rewrite Hf. simpl.
  rewrite decide_False by (by intros H; apply H). simpl.
  rewrite Hinf. simpl. rewrite Hdet. simpl. rewrite Hs. simpl.
  rewrite Hp. simpl. destruct p as [|p']; [lia|]. simpl. rewrite Htile.
  rewrite series_sub_same_length
    by (rewrite tiled_to_length_length; [done|rewrite Hsl; lia]).
  simpl. rewrite pd_Series_same_index by exact Hidet.
  simpl. rewrite Hww. simpl. by rewrite Hidet, Hy.
Qed.

Lemma continued_from_0 {A} (sv : list A) (n : nat) :
  SeasonSpec.continued_from sv 0 n = DecomposerSpec.tiled_to_length sv n.
Proof.
  unfold SeasonSpec.continued_from, DecomposerSpec.tiled_to_length.
  apply omap_seq_ext. intros i. by rewrite Nat.add_0_r.
Qed.

(** What [inverse_transform] makes of what [transform] returns, for a
    daily series and a decomposer fitted on a daily series, before any
    arithmetic is simplified. *)
Lemma round_trip_run C (trend : detrender → Index → list num) X0 X st0 st
    y0 y ts0 tss t0 ts p :
  (∀ s : Series, infer_feature_types C s = inr s) →
  (∀ s : Series, ww_init_double C s = inr tt) →
  (∀ d s, detrender_transform C d s
          = inr {| index := index s;
                   values := zip_with (nsub C) (values s)
                               (trend d (index s)) |}) →
  (∀ d s, detrender_inverse_transform C d s
          = inr {| index := index s;
                   values := zip_with (nadd C) (values s)
                               (trend d (index s)) |}) →
  (∀ d i, length (trend d i) = index_len i) →
  (∀ s r : Series, seasonal_decompose C s = inr r →
                   index r = index s ∧ len r = len s) →
  index y0 = DatetimeIndex (Some "D") (ts0 :: tss) →
  length (ts0 :: tss) = len y0 →
  freq_to_period C (Some "D") = inr p →
  (0 < p ≤ len y0)%nat →
  fit C X0 (Some y0) st0 = (st, Ok tt) →
  index y = DatetimeIndex (Some "D") (t0 :: ts) →
  length (t0 :: ts) = len y →
  ∃ (sv tr : list num) y_t,
    seasonality st
    = Some (SeasonalSeries
              {| index := DatetimeIndex (Some "D") (ts0 :: take (p - 1) tss);
                 values := sv |})
    ∧ length sv = p
    ∧ length tr = len y
    ∧ transform C X (Some y) st = (st, Ok (X, Some y_t))
    ∧ inverse_transform C (Some y_t) st
      = (st,
         Ok {| index := index y;
               values :=
                 zip_with (nadd C)
                   (zip_with (nadd C)
                      (zip_with (nsub C) (zip_with (nsub C) (values y) tr)
                         (DecomposerSpec.tiled_to_length sv (len y)))
                      tr)
                   (SeasonSpec.continued_from sv
                      (Z.to_nat
                         (((t0 - ts0) mod timedelta_days (Z.of_nat p))
                          ÷ timedelta_days 1))
                      (len y)) |}).
Proof.
  intros Hinf Hww Htr Hinv Htrend Hseas Hy0 Hlen0 Hp [Hp0 Hple] Hfit
    Hy Hlen.
  destruct (fit_datetime_inv _ _ _ _ _ _ _ _ Hfit (Hinf y0) Hy0)
    as (d' & p' & detrended & seasonal & _ & Hp' & Hdet & Hs & Hst).
  rewrite Hp in Hp'. injection Hp' as <-.
  rewrite Htr in Hdet. injection Hdet as <-.
  apply Hseas in Hs as [Hsi Hsl]. simpl in Hsi.
  assert (len seasonal = len y0) as Hsl'.
  { rewrite Hsl. unfold len. simpl.
    rewrite length_zip_with, Htrend, Hy0. simpl in *. unfold len in Hlen0.
    lia. }
  clear Hsl.
  set (s := series_take p seasonal).
  assert (length (values s) = p) as Hsp.
  { unfold s. simpl. rewrite length_take. unfold len in *. lia. }
  assert (index s = DatetimeIndex (Some "D") (ts0 :: take (p - 1) tss)) as Hsidx.
  { unfold s. simpl. rewrite Hsi, Hy0. simpl.
    destruct p as [|p']; [lia|]. simpl. by rewrite Nat.sub_0_r. }
  assert (frequency st = Some (Some "D")) as Hfreq by (by subst st).
  assert (periodicity st = Some p) as Hper by (by subst st).
  assert (seasonality st = Some (SeasonalSeries s)) as Hseason by (by subst st).
  assert (_component_obj st = d') as Hd by (by subst st).
  clear Hst Hfit.
  destruct y as [iy ys]. simpl in Hy. subst iy.
  set (iy := DatetimeIndex (Some "D") (t0 :: ts)) in *.
  set (tr := trend d' iy).
  assert (length tr = length ys) as Htl.
  { unfold tr. rewrite Htrend. unfold iy, len in *. simpl in *. lia. }
  set (ss := DecomposerSpec.tiled_to_length (values s) (length ys)).
  assert (length ss = length ys) as Hssl
    by (unfold ss; apply tiled_to_length_length; lia).
  set (y_t := {| index := iy;
                 values := zip_with (nsub C) (zip_with (nsub C) ys tr) ss |}).
  assert (len y_t = length ys) as Hytl.
  { unfold y_t, len. simpl. rewrite !length_zip_with, Htl, Hssl. lia. }
  exists (values s), tr, y_t.
  split; [by rewrite Hseason, <- Hsidx; destruct s|].
  split; [done|]. split; [done|]. split.
  - rewrite (transform_datetime_run C X st {| index := iy; values := ys |}
               {| index := iy; values := zip_with (nsub C) ys tr |}
               s (Some "D") (t0 :: ts) p); try done.
    + unfold len. simpl. by rewrite length_zip_with, Htl, Nat.min_id.
    + by rewrite Hd, Htr.
  - rewrite (inverse_transform_daily_run C st y_t
               {| index := iy;
                  values := zip_with (nadd C) (values y_t) tr |}
               s (Some "D") (Some "D") t0 ts ts0 (take (p - 1) tss) p);
      try done; cycle 1.
    + by rewrite Hd, Hinv.
    + unfold len. simpl. rewrite !length_zip_with, Htl, Hssl. lia.
    + by rewrite Hytl.
Qed.

(** X10.  The round trip of [transform] and [inverse_transform] holds for
    more than the fitted series: it returns [y] for every daily series
    [y] whose first date is a whole number of periods after the first
    date of the series of the fit.  (Exact arithmetic and the callees as
    documented, as for the fitted series itself; the fit has seen at least
    one period.) *)
Theorem round_trip_on_aligned_daily_series C
    (trend : detrender → Index → list num) X0 X st0 st y0 y
    ts0 tss t0 ts p :
  (∀ a t s, nadd C (nadd C (nsub C (nsub C a t) s) t) s = a) →
  (∀ s : Series, infer_feature_types C s = inr s) →
  (∀ s : Series, ww_init_double C s = inr tt) →
  (∀ d s, detrender_transform C d s
          = inr {| index := index s;
                   values := zip_with (nsub C) (values s)
                               (trend d (index s)) |}) →
  (∀ d s, detrender_inverse_transform C d s
          = inr {| index := index s;
                   values := zip_with (nadd C) (values s)
                               (trend d (index s)) |}) →
  (∀ d i, length (trend d i) = index_len i) →
  (∀ s r : Series, seasonal_decompose C s = inr r →
                   index r = index s ∧ len r = len s) →
  index y0 = DatetimeIndex (Some "D") (ts0 :: tss) →
  length (ts0 :: tss) = len y0 →
  freq_to_period C (Some "D") = inr p →
  (0 < p ≤ len y0)%nat →
  fit C X0 (Some y0) st0 = (st, Ok tt) →
  index y = DatetimeIndex (Some "D") (t0 :: ts) →
  length (t0 :: ts) = len y →
  (t0 - ts0) mod timedelta_days (Z.of_nat p) < timedelta_days 1 →
  ∃ y_t, transform C X (Some y) st = (st, Ok (X, Some y_t))
         ∧ inverse_transform C (Some y_t) st = (st, Ok y).
Proof.
  intros Hexact Hinf Hww Htr Hinv Htrend Hseas Hy0 Hlen0 Hp Hpp Hfit
    Hy Hlen Halign.
  destruct (round_trip_run C trend X0 X st0 st y0 y ts0 tss t0 ts p
              Hinf Hww Htr Hinv Htrend Hseas Hy0 Hlen0 Hp Hpp Hfit Hy Hlen)
    as (sv & tr & y_t & _ & Hsv & Htl & Ht & Hi).
  exists y_t. split; [exact Ht|]. rewrite Hi.
  assert (((t0 - ts0) mod timedelta_days (Z.of_nat p))
          ÷ timedelta_days 1 = 0) as ->.
  { apply Z.quot_small. split; [|done].
    apply Z.mod_pos_bound. unfold timedelta_days. lia. }
  change (Z.to_nat 0) with 0%nat. rewrite continued_from_0.
  rewrite add_back_removed; [by destruct y|done|done|].
  apply tiled_to_length_length. lia.
Qed.

Lemma season_replaced (sub add : num → num → num) (ys ts ss ss' : list num) :
  (∀ a t s s', add (add (sub (sub a t) s) t) s' = add (sub a s) s') →
  length ts = length ys → length ss = length ys → length ss' = length ys →
  zip_with add (zip_with add (zip_with sub (zip_with sub ys ts) ss) ts) ss'
  = zip_with add (zip_with sub ys ss) ss'.
Proof.
  intros Hexact. revert ts ss ss'.
  induction ys as [|y ys IH]; intros [|t ts] [|s ss] [|s' ss'] Ht Hs Hs';
    simplify_eq/=; [done|].
  by rewrite Hexact, IH.
Qed.

Lemma continued_from_length {A} (sv : list A) (k n : nat) :
  (0 < length sv)%nat → length (SeasonSpec.continued_from sv k n) = n.
Proof.
  intros Hsv. unfold SeasonSpec.continued_from.
  assert (∀ start, length (omap (λ i, sv !! ((i + k) mod length sv)%nat)
                             (seq start n)) = n) as H; [|apply H].
  induction n as [|n IH]; intros start; [done|]. simpl.
  destruct (lookup_lt_is_Some_2 sv ((start + k) mod length sv)%nat) as [x ->].
  { apply Nat.mod_upper_bound. lia. }
  simpl. by rewrite IH.
Qed.

(** X18.  In general the round trip does not give [y] back: [transform]
    removes the saved season from its first element on, whatever the
    dates of [y], while [inverse_transform] adds it in phase with the
    dates.  For a daily [y] that starts [k] days (modulo the period) after
    the series of the fit, the round trip returns, at position [i], the
    value of [y] minus element [i mod p] of the season plus element
    [(i + k) mod p].  (Exact arithmetic, callees as documented.) *)
Theorem round_trip_shifts_the_season C
    (trend : detrender → Index → list num) X0 X st0 st y0 y
    ts0 tss t0 ts p :
  (∀ a t s s', nadd C (nadd C (nsub C (nsub C a t) s) t) s'
               = nadd C (nsub C a s) s') →
  (∀ s : Series, infer_feature_types C s = inr s) →
  (∀ s : Series, ww_init_double C s = inr tt) →
  (∀ d s, detrender_transform C d s
          = inr {| index := index s;
                   values := zip_with (nsub C) (values s)
                               (trend d (index s)) |}) →
  (∀ d s, detrender_inverse_transform C d s
          = inr {| index := index s;
                   values := zip_with (nadd C) (values s)
                               (trend d (index s)) |}) →
  (∀ d i, length (trend d i) = index_len i) →
  (∀ s r : Series, seasonal_decompose C s = inr r →
                   index r = index s ∧ len r = len s) →
  index y0 = DatetimeIndex (Some "D") (ts0 :: tss) →
  length (ts0 :: tss) = len y0 →
  freq_to_period C (Some "D") = inr p →
  (0 < p ≤ len y0)%nat →
  fit C X0 (Some y0) st0 = (st, Ok tt) →
  index y = DatetimeIndex (Some "D") (t0 :: ts) →
  length (t0 :: ts) = len y →
  ∃ sv y_t,
    seasonality st
    = Some (SeasonalSeries
              {| index := DatetimeIndex (Some "D") (ts0 :: take (p - 1) tss);
                 values := sv |})
    ∧ transform C X (Some y) st = (st, Ok (X, Some y_t))
    ∧ inverse_transform C (Some y_t) st
      = (st,
         Ok {| index := index y;
               values :=
                 zip_with (nadd C)
                   (zip_with (nsub C) (values y)
                      (DecomposerSpec.tiled_to_length sv (len y)))
                   (SeasonSpec.continued_from sv
                      (Z.to_nat
                         (((t0 - ts0) mod timedelta_days (Z.of_nat p))
                          ÷ timedelta_days 1))
                      (len y)) |}).
Proof.
  intros Hexact Hinf Hww Htr Hinv Htrend Hseas Hy0 Hlen0 Hp Hpp Hfit
    Hy Hlen.
  destruct (round_trip_run C trend X0 X st0 st y0 y ts0 tss t0 ts p
              Hinf Hww Htr Hinv Htrend Hseas Hy0 Hlen0 Hp Hpp Hfit Hy Hlen)
    as (sv & tr & y_t & Hs & Hsv & Htl & Ht & Hi).
  exists sv, y_t. split; [exact Hs|]. split; [exact Ht|]. rewrite Hi.
  rewrite season_replaced; [done|done|done| |].
  - apply tiled_to_length_length. lia.
  - apply continued_from_length. lia.
Qed.

(** ** What the methods leave alone *)

(** A method body that keeps the two attributes that [__init__] sets
    beside the detrender. *)
Definition keeps_parameters {A} (c : M A) : Prop :=
  ∀ self, parameters (c self).1 = parameters self
          ∧ random_seed (c self).1 = random_seed self.

Lemma kp_bind {A B} (c : M A) (k : A → M B) :
  keeps_parameters c → (∀ a, keeps_parameters (k a)) →
  keeps_parameters (bind c k).
Proof.
  intros Hc Hk self. rewrite bind_run.
  pose proof (Hc self) as [Hc1 Hc2].
  destruct (c self) as [self' [a|e]]; simpl in *; [|done].
  destruct (Hk a self') as [-> ->]. done.
Qed.

Lemma kp_keeps {A} (c : M A) : keeps_self c → keeps_parameters c.
Proof. intros Hc self. by rewrite Hc. Qed.

Lemma kp_assign upd :
  (∀ self, parameters (upd self) = parameters self
           ∧ random_seed (upd self) = random_seed self) →
  keeps_parameters (assign upd).
Proof. intros H self. apply H. Qed.

Ltac kp_step :=
  first
    [ apply kp_bind; [|intros ?]
    | apply kp_assign; by intros ?
    | apply kp_keeps;
      first [ apply keeps_ret | apply keeps_raise | apply keeps_call
            | apply keeps_lift | apply keeps_read | apply keeps_getattr
            | apply keeps_local | apply keeps_floordiv ]
    | case_decide
    | case_match ].

(** X11.  [fit] and [fit_transform] change the detrender and the three
    fitted attributes only: [parameters] and [random_seed] are the same
    after them, whether they return or raise.  [inverse_transform]
    changes nothing at all, on every target and in every state, and
    whether it returns or raises. *)
Theorem methods_keep_constructor_state C X (y : option Series) self :
  parameters (fit C X y self).1 = parameters self
  ∧ random_seed (fit C X y self).1 = random_seed self
  ∧ parameters (fit_transform C X y self).1 = parameters self
  ∧ random_seed (fit_transform C X y self).1 = random_seed self
  ∧ (inverse_transform C y self).1 = self.
Proof.
  assert (keeps_parameters (fit C X y)) as Hfit
    by (unfold fit; repeat kp_step).
  assert (keeps_parameters (fit_transform C X y)) as Hft.
  { unfold fit_transform. apply kp_bind; [done|]. intros _.
    apply kp_keeps, transform_keeps_self. }
  destruct (Hfit self) as [? ?]. destruct (Hft self) as [? ?].
  repeat split; try done. apply inverse_transform_keeps_self.
Qed.

End DecomposerMore.

End DecomposerMore.

Module DecomposerMoreWitness.

Import Decomposer DecomposerDemo DecomposerDemoMore DecomposerMore.

Lemma demo_keeps_index (s s' : Series (num := Z)) :
  infer_feature_types demo s = inr s' → index s' = index s.
Proof. by intros [= ->]. Qed.

(** X5 on [degree=2.0]. *)
Lemma init_stores_the_checked_degree_witness :
  ∃ st, __init__ demo (PyFloat (S754_finite false 1 1)) (PyInt 0) ∅ = Ok st
        ∧ ∃ v, parameters st !! "degree" = Some v
               ∧ _component_obj st = new_detrender demo v
               ∧ v = PyInt 2.
Proof.
  eexists. split; [reflexivity|].
  destruct (init_stores_the_checked_degree demo
              (PyFloat (S754_finite false 1 1)) (PyInt 0) ∅ _ eq_refl
              (lookup_empty _))
    as (v & Hp & Hc & [[Hi _]|(f & z & Hf & Hz & Hv)] & _); [done|].
  exists v. split; [exact Hp|]. split; [exact Hc|].
  injection Hf as <-. rewrite Hv. f_equal.
  change (1 * 1 * 2 ^ 1 = z * 2 ^ 0) in Hz. lia.
Defined.

(** X6 on a frequency that [freq_to_period] rejects. *)
Lemma fit_failure_witness :
  fit demo tt (Some quarter_hours) fresh
  = ({| parameters := parameters fresh;
        random_seed := random_seed fresh;
        _component_obj := (1, 1);
        frequency := Some (Some "15T");
        periodicity := None;
        seasonality := None |},
     Raise (CalleeError "freq not understood")).
Proof.
  destruct (fit_failure_leaves_partial_state demo tt quarter_hours fresh)
    as (_ & H & _).
  exact (H quarter_hours (1, 1) (Some "15T") _ "freq not understood"
           eq_refl eq_refl eq_refl eq_refl).
Defined.

(** X7: a fit on a series without dates, then [inverse_transform]. *)
Lemma fit_without_dates_witness :
  ∃ st, fit demo tt (Some unindexed) fresh = (st, Ok tt)
        ∧ seasonality st = Some (SeasonalArray [0; 0; 0])
        ∧ inverse_transform demo (Some unindexed) st
          = (st, Raise (AttributeError "index")).
Proof.
  eexists. split; [reflexivity|].
  destruct (fit_without_dates_breaks_inverse_transform demo tt unindexed
              unindexed [0; 1; 2] fresh _ eq_refl eq_refl eq_refl)
    as (_ & _ & Hs & H).
  split; [exact Hs|].
  destruct (H unindexed) as [_ H'].
  eapply H'; reflexivity.
Defined.

(** X8: [fit_transform] on two weeks of daily data, and on three days,
    which the seasonal decomposition of the demo rejects. *)
Lemma fit_transform_witness :
  fit demo tt (Some two_weeks) fresh = (fitted_daily, Ok tt)
  ∧ fit_transform demo tt (Some two_weeks) fresh
    = transform demo tt (Some two_weeks) fitted_daily
  ∧ (∀ msg, (fit_transform demo tt (Some two_weeks) fresh).2
            ≠ Raise (ValueError msg))
  ∧ (fit_transform demo tt (Some three_days) fresh).2
    = Raise (CalleeError "x must have 2 complete cycles").
Proof.
  destruct (fit_transform_composes demo tt (Some two_weeks) fresh)
    as (_ & H1 & _ & H2).
  destruct (fit_transform_composes demo tt (Some three_days) fresh)
    as (_ & _ & H3 & _).
  split; [reflexivity|]. split; [|split].
  - apply H1. reflexivity.
  - intros msg. eapply H2; [apply demo_keeps_index|reflexivity].
  - erewrite H3; reflexivity.
Defined.

(** X9: five days that start three days after the fitted two weeks get
    the season from its fourth element on. *)
Lemma inverse_transform_in_phase_witness :
  inverse_transform demo (Some five_days_later) fitted_daily
  = (fitted_daily,
     Ok {| index := from_day 3 5; values := [13; 26; 39; 45; 57] |}).
Proof.
  rewrite (inverse_transform_adds_season_in_phase demo fitted_daily
             five_days_later
             {| index := from_day 3 5; values := [13; 24; 35; 46; 57] |}
             {| index := daily 7; values := [0; 1; -1; 0; 2; 4; -1] |}
             (Some "D") (Some "D") (3 * day)
             ((λ k, (3 + k) * day) <$> seqZ 1 4) 0
             ((λ k, k * day) <$> seqZ 1 6) 7%nat);
    try reflexivity.
  lia.
Defined.

Lemma demo_trend_has_index_length (d : line) (i : Index) :
  length (demo_trend d i) = index_len i.
Proof. unfold demo_trend. rewrite length_fmap, length_seqZ. lia. Qed.

Lemma demo_seasonal_shape (s r : Series (num := Z)) :
  demo_seasonal_decompose s = inr r → index r = index s ∧ len r = len s.
Proof.
  unfold demo_seasonal_decompose. intros H.
  destruct (index s) as [f stamps|labels] eqn:Hi; [|done].
  destruct (demo_freq_to_period f) as [e|p] eqn:Hp; [done|].
  case_decide as Hlen; [|done]. injection H as <-.
  split; [done|]. unfold len. simpl.
  apply DecomposerFacts.tiled_to_length_length. rewrite length_take.
  assert (0 < p)%nat; [|lia].
  unfold demo_freq_to_period in Hp. repeat case_match; simplify_eq; lia.
Qed.

(** X10: the week after the fitted two weeks, there and back. *)
Lemma round_trip_aligned_witness :
  ∃ y_t,
    transform demo tt (Some next_week) fitted_daily
    = (fitted_daily, Ok (tt, Some y_t))
    ∧ inverse_transform demo (Some y_t) fitted_daily
      = (fitted_daily, Ok next_week).
Proof.
  apply (round_trip_on_aligned_daily_series demo demo_trend tt tt fresh
           fitted_daily two_weeks next_week 0
           ((λ k, k * day) <$> seqZ 1 13) (7 * day)
           ((λ k, (7 + k) * day) <$> seqZ 1 6) 7%nat).
  - intros a t s. simpl. lia.
  - reflexivity.
  - reflexivity.
  - reflexivity.
  - reflexivity.
  - apply demo_trend_has_index_length.
  - apply demo_seasonal_shape.
  - reflexivity.
  - reflexivity.
  - reflexivity.
  - vm_compute. lia.
  - reflexivity.
  - reflexivity.
  - reflexivity.
  - vm_compute. reflexivity.
Defined.

(** X18: five days that start three days after the fitted two weeks do
    not come back as they were. *)
Lemma round_trip_shifts_the_season_witness :
  ∃ y_t,
    transform demo tt (Some five_days_later) fitted_daily
    = (fitted_daily, Ok (tt, Some y_t))
    ∧ inverse_transform demo (Some y_t) fitted_daily
      = (fitted_daily,
         Ok {| index := from_day 3 5; values := [10; 21; 35; 39; 48] |}).
Proof.
  destruct (round_trip_shifts_the_season demo demo_trend tt tt fresh
              fitted_daily two_weeks five_days_later 0
              ((λ k, k * day) <$> seqZ 1 13) (3 * day)
              ((λ k, (3 + k) * day) <$> seqZ 1 4) 7%nat)
    as (sv & y_t & Hs & Ht & Hi).
  - intros a t s s'. simpl. lia.
  - reflexivity.
  - reflexivity.
  - reflexivity.
  - reflexivity.
  - apply demo_trend_has_index_length.
  - apply demo_seasonal_shape.
  - reflexivity.
  - reflexivity.
  - reflexivity.
  - vm_compute. lia.
  - reflexivity.
  - reflexivity.
  - reflexivity.
  - exists y_t. split; [exact Ht|]. rewrite Hi.
    vm_compute in Hs. injection Hs as <-. reflexivity.
Defined.

End DecomposerMoreWitness.

(* ===================================================================== *)
(** * Part VII: [get_trend_dataframe], theorems                           *)
(* ===================================================================== *)

Module TrendFrameFacts.

Import Decomposer DecomposerFacts TrendFrame.

Section TrendFrameFacts.

Context {num features detrender callee_exn forecaster horizon : Type}.

Local Abbreviation Callees :=
  (Callees (num := num) (detrender := detrender) (callee_exn := callee_exn)).
Local Abbreviation FrameCallees :=
  (FrameCallees (num := num) (features := features) (detrender := detrender)
     (callee_exn := callee_exn) (forecaster := forecaster)
     (horizon := horizon)).
Local Abbreviation PolynomialDecomposer :=
  (PolynomialDecomposer (num := num) (detrender := detrender)).
Local Abbreviation Series := (Series (num := num)).
Local Abbreviation target := (target (num := num)).
Local Abbreviation trend_dataframe := (trend_dataframe (num := num)).
Local Abbreviation M :=
  (M (num := num) (detrender := detrender) (callee_exn := callee_exn)).

Implicit Types (C : Callees) (F : FrameCallees)
  (self st : PolynomialDecomposer) (X : features) (y : target).

Ltac unfold_body :=
  unfold bind, call, lift, getattr, read, assign, local, floordiv, ret,
    raise in *;
  simpl in *.

Ltac nve_frame :=
  repeat first
    [ apply nve_bind; [|intros ?]
    | apply nve_ret | apply nve_call | apply nve_read
    | case_decide
    | case_match ].

Ltac keeps_frame :=
  repeat first
    [ apply keeps_bind; [|intros ?]
    | apply keeps_ret | apply keeps_raise | apply keeps_call
    | apply keeps_read
    | case_decide
    | case_match ].

Lemma decompose_item_no_value_error C F X item (fh : horizon) :
  no_value_error (decompose_item C F X item fh).
Proof. unfold decompose_item, _decompose_target. nve_frame. Qed.

Lemma decompose_columns_no_value_error C F X columns colnames (fh : horizon) :
  no_value_error (decompose_columns C F X columns colnames fh).
Proof.
  induction colnames as [|c rest IH]; simpl.
  - apply nve_ret.
  - apply nve_bind; [apply decompose_item_no_value_error|]. intros df.
    apply nve_bind; [exact IH|]. intros dfs. apply nve_ret.
Qed.

Lemma decompose_item_keeps_self C F X item (fh : horizon) :
  keeps_self (decompose_item C F X item fh).
Proof. unfold decompose_item, _decompose_target. keeps_frame. Qed.

Lemma decompose_columns_keeps_self C F X columns colnames (fh : horizon) :
  keeps_self (decompose_columns C F X columns colnames fh).
Proof.
  induction colnames as [|c rest IH]; simpl.
  - apply keeps_ret.
  - apply keeps_bind; [apply decompose_item_keeps_self|]. intros df.
    apply keeps_bind; [exact IH|]. intros dfs. apply keeps_ret.
Qed.

Lemma get_trend_dataframe_keeps_self C F X y :
  keeps_self (get_trend_dataframe C F X y).
Proof.
  unfold get_trend_dataframe.
  apply keeps_bind; [apply keeps_call|]. intros X'.
  destruct (frame_index F X') as [[f|] stamps|labels];
    [|apply keeps_raise..].
  apply keeps_bind; [apply keeps_call|]. intros fh.
  destruct y as [s|columns|n].
  - apply keeps_bind; [apply (decompose_item_keeps_self _ _ _ (inl s))|].
    intros df. apply keeps_ret.
  - apply decompose_columns_keeps_self.
  - apply keeps_raise.
Qed.

(** X12.  The checks of [get_trend_dataframe], in their order.  An [X]
    whose index is not a DatetimeIndex gives the [TypeError] about [X],
    whatever [y] is; a DatetimeIndex without a frequency gives the
    [ValueError]; only then is the type of [y] checked.  The [ValueError]
    is raised in no other case, and nothing is assigned to the
    decomposer. *)
Theorem get_trend_dataframe_checks C F X y self :
  (∀ X' labels,
     infer_frame F X = inr X' → frame_index F X' = IntIndex labels →
     get_trend_dataframe C F X y self
     = (self, Raise (TypeError X_type_message)))
  ∧ (∀ X' stamps,
       infer_frame F X = inr X' →
       frame_index F X' = DatetimeIndex None stamps →
       get_trend_dataframe C F X y self
       = (self, Raise (ValueError X_freq_message)))
  ∧ (∀ X' f stamps (fh : horizon) n,
       infer_frame F X = inr X' →
       frame_index F X' = DatetimeIndex (Some f) stamps →
       ForecastingHorizon F (frame_index F X') = inr fh →
       y = TargetOther n →
       get_trend_dataframe C F X y self
       = (self, Raise (TypeError y_type_message)))
  ∧ ((∃ msg, (get_trend_dataframe C F X y self).2 = Raise (ValueError msg))
     ↔ ∃ X' stamps, infer_frame F X = inr X'
                    ∧ frame_index F X' = DatetimeIndex None stamps).
Proof.
  split; [|split; [|split]].
  - intros X' labels HX Hi. unfold get_trend_dataframe. unfold_body.
    rewrite HX. simpl. by rewrite Hi.
  - intros X' stamps HX Hi. unfold get_trend_dataframe. unfold_body.
    rewrite HX. simpl. by rewrite Hi.
  - intros X' f stamps fh n HX Hi Hfh ->. unfold get_trend_dataframe.
    unfold_body. rewrite HX. simpl. rewrite Hi. rewrite Hi in Hfh.
    by rewrite Hfh.
  - split.
    + intros [msg Hmsg]. unfold get_trend_dataframe in Hmsg.
      rewrite bind_run in Hmsg. unfold call in Hmsg.
      destruct (infer_frame F X) as [e|X'] eqn:HX; [done|].
      simpl in Hmsg.
      destruct (frame_index F X') as [[f|] stamps|labels] eqn:Hi.
      * exfalso. revert Hmsg. apply nve_run.
        apply nve_bind; [apply nve_call|]. intros fh.
        destruct y as [s|columns|n].
        -- apply nve_bind;
             [apply (decompose_item_no_value_error _ _ _ (inl s))|].
           intros df. apply nve_ret.
        -- apply decompose_columns_no_value_error.
        -- by intros ? ?.
      * by exists X', stamps.
      * done.
    + intros (X' & stamps & HX & Hi). exists X_freq_message.
      unfold get_trend_dataframe. unfold_body. rewrite HX. simpl.
      by rewrite Hi.
Qed.

Lemma decompose_columns_length C F X columns colnames (fh : horizon)
    self st (dfs : list trend_dataframe) :
  decompose_columns C F X columns colnames fh self = (st, Ok dfs) →
  length dfs = length colnames.
Proof.
  revert self dfs. induction colnames as [|c rest IH]; intros self dfs H;
    simpl in H.
  - unfold ret in H. by simplify_eq.
  - rewrite bind_run in H.
    destruct (decompose_item C F X (getitem columns c) fh self)
      as [s1 [df|e]]; [|done].
    rewrite bind_run in H.
    destruct (decompose_columns C F X columns rest fh s1)
      as [s2 [dfs'|e]] eqn:Hrest; [|done].
    unfold ret in H. simplify_eq. simpl. f_equal. by eapply IH.
Qed.

(** X13.  When [get_trend_dataframe] returns, it returns one DataFrame
    for a Series and one per column, in the order of the columns, for a
    DataFrame; it returns for no other [y]. *)
Theorem get_trend_dataframe_count C F X y self st
    (dfs : list trend_dataframe) :
  get_trend_dataframe C F X y self = (st, Ok dfs) →
  match y with
  | TargetSeries _ => length dfs = 1%nat
  | TargetFrame columns => length dfs = length columns
  | TargetOther _ => False
  end.
Proof.
  unfold get_trend_dataframe. rewrite bind_run. unfold call.
  destruct (infer_frame F X) as [e|X']; [done|]. simpl.
  destruct (frame_index F X') as [[f|] stamps|labels]; [|done..].
  rewrite bind_run.
  destruct (ForecastingHorizon F _) as [e|fh]; [done|]. simpl.
  destruct y as [s|columns|n].
  - rewrite bind_run.
    destruct (_decompose_target C F X' s fh self) as [s1 [df|e]]; [|done].
    unfold ret. by intros [= _ <-].
  - intros H. apply decompose_columns_length in H.
    by rewrite length_fmap in H.
  - done.
Qed.

(** ** The three columns *)

Lemma series_minus_same C F (a b : Series) :
  index b = index a → len b = len a →
  series_minus C F a b
  = inr {| index := index a;
           values := zip_with (nsub C) (values a) (values b) |}.
Proof.
  intros Hi Hl. unfold series_minus. unfold len in Hl.
  by rewrite decide_True by (by split).
Qed.

Lemma components_sum (sub add : num → num → num) (ys ts ss : list num) :
  (∀ a t s, add (add (sub (sub a t) s) s) t = a) →
  length ts = length ys → length ss = length ys →
  zip_with add (zip_with add (zip_with sub (zip_with sub ys ts) ss) ss) ts
  = ys.
Proof.
  intros Hexact. revert ts ss.
  induction ys as [|y ys IH]; intros [|t ts] [|s ss] Ht Hs;
    simplify_eq/=; [done|].
  by rewrite Hexact, IH.
Qed.

(** X14.  For a Series [y], [get_trend_dataframe] returns one DataFrame
    whose [trend] is what a clone of the decomposer's forecaster, fitted
    on [y], predicts on the index of [X], whose [seasonality] is the
    seasonal component of [y - trend], and whose [residual] is
    [y - trend - seasonality].  So, in exact arithmetic, the three columns
    add up to [y].  (The forecast and the seasonal component are taken to
    have the index and the length of [y].) *)
Theorem get_trend_dataframe_decomposes C F X (s t ss : Series) self X' f
    stamps (fh : horizon) (fc : forecaster) :
  infer_frame F X = inr X' →
  frame_index F X' = DatetimeIndex (Some f) stamps →
  ForecastingHorizon F (frame_index F X') = inr fh →
  forecaster_fit F (clone F (forecaster_of F (_component_obj self))) s X'
  = inr fc →
  forecaster_predict F fc fh s = inr t →
  index t = index s → len t = len s →
  seasonal_decompose C
    {| index := index s; values := zip_with (nsub C) (values s) (values t) |}
  = inr ss →
  index ss = index s → len ss = len s →
  get_trend_dataframe C F X (TargetSeries s) self
  = (self,
     Ok [ {| trend := t;
             seasonality := ss;
             residual :=
               {| index := index s;
                  values := zip_with (nsub C)
                              (zip_with (nsub C) (values s) (values t))
                              (values ss) |} |} ])
  ∧ ((∀ a b c, nadd C (nadd C (nsub C (nsub C a b) c) c) b = a) →
     zip_with (nadd C)
       (zip_with (nadd C)
          (zip_with (nsub C) (zip_with (nsub C) (values s) (values t))
             (values ss))
          (values ss))
       (values t)
     = values s).
Proof.
  intros HX Hi Hfh Hfit Hpred Hti Htl Hseas Hsi Hsl. split.
  - unfold get_trend_dataframe, _decompose_target. unfold_body.
    rewrite HX. simpl. rewrite Hi. rewrite Hi in Hfh. rewrite Hfh. simpl.
    rewrite Hfit. simpl. rewrite Hpred. simpl.
    rewrite (series_minus_same C F s t Hti Htl). simpl.
    rewrite Hseas. simpl.
    rewrite series_minus_same; cycle 1.
    { exact Hsi. }
    { unfold len in *. simpl. rewrite length_zip_with. lia. }
    simpl. unfold dataframe. simpl.
    rewrite decide_True by (split; congruence). done.
  - intros Hexact. unfold len in *. by apply components_sum.
Qed.

(** ** The fit is not used *)

Section same_result.

Variables self self' : PolynomialDecomposer.

(** A method body that returns the same on [self] and on [self'] and
    assigns to neither. *)
Definition same_result {A} (c : M A) : Prop :=
  (c self').2 = (c self).2 ∧ (c self).1 = self ∧ (c self').1 = self'.

Lemma same_bind {A B} (c : M A) (k : A → M B) :
  same_result c → (∀ a, same_result (k a)) → same_result (bind c k).
Proof.
  intros (Hr & Hs & Hs') Hk. unfold same_result. rewrite !bind_run.
  destruct (c self) as [s1 r1], (c self') as [s1' r1']. simpl in *.
  subst. destruct r1 as [a|e]; [apply Hk|done].
Qed.

Lemma same_call {A} (c : callee A) : same_result (call c).
Proof. by destruct c. Qed.

Lemma same_ret {A} (a : A) : same_result (ret a).
Proof. done. Qed.

Lemma same_raise {A} (e : exn) : same_result (raise (A := A) e).
Proof. done. Qed.

Ltac same_frame :=
  repeat first
    [ apply same_bind; [|intros ?]
    | apply same_ret | apply same_raise | apply same_call
    | case_decide
    | case_match ].

Variables (C : Callees) (F : FrameCallees).

Hypothesis same_clone :
  clone F (forecaster_of F (_component_obj self'))
  = clone F (forecaster_of F (_component_obj self)).

Lemma decompose_item_same X item (fh : horizon) :
  same_result (decompose_item C F X item fh).
Proof.
  unfold decompose_item, _decompose_target.
  destruct item as [y|sub].
  - unfold same_result. rewrite !(bind_run (read _)). unfold read.
    rewrite same_clone.
    match goal with
    | |- (?c self').2 = (?c self).2 ∧ _ => change (same_result c)
    end.
    same_frame.
  - unfold same_result. rewrite !(bind_run (read _)). unfold read.
    rewrite same_clone.
    match goal with
    | |- (?c self').2 = (?c self).2 ∧ _ => change (same_result c)
    end.
    same_frame.
Qed.

Lemma decompose_columns_same X columns colnames (fh : horizon) :
  same_result (decompose_columns C F X columns colnames fh).
Proof.
  induction colnames as [|c rest IH]; simpl.
  - apply same_ret.
  - apply same_bind; [apply decompose_item_same|]. intros df.
    apply same_bind; [exact IH|]. intros dfs. apply same_ret.
Qed.

Lemma get_trend_dataframe_same X y :
  same_result (get_trend_dataframe C F X y).
Proof.
  unfold get_trend_dataframe.
  apply same_bind; [apply same_call|]. intros X'.
  destruct (frame_index F X') as [[f|] stamps|labels];
    [|apply same_raise..].
  apply same_bind; [apply same_call|]. intros fh.
  destruct y as [s|columns|n].
  - apply same_bind; [apply (decompose_item_same _ (inl s))|].
    intros df. apply same_ret.
  - apply decompose_columns_same.
  - apply same_raise.
Qed.

End same_result.

(** X15.  [get_trend_dataframe] does not use what [fit] has saved: it
    reads none of [frequency], [periodicity] and [seasonality], and of the
    detrender only a clone of its forecaster, which it fits anew on [y].
    So two decomposers whose forecasters have the same clone (a fresh one
    and a fitted one, when cloning drops what was fitted) return the
    same, errors included, and neither is changed. *)
Theorem get_trend_dataframe_ignores_the_fit C F X y self self' :
  clone F (forecaster_of F (_component_obj self'))
  = clone F (forecaster_of F (_component_obj self)) →
  (get_trend_dataframe C F X y self').2 = (get_trend_dataframe C F X y self).2
  ∧ (get_trend_dataframe C F X y self).1 = self
  ∧ (get_trend_dataframe C F X y self').1 = self'.
Proof. intros H. by apply get_trend_dataframe_same. Qed.

End TrendFrameFacts.

End TrendFrameFacts.

Module TrendFrameWitness.

Import Decomposer DecomposerDemo TrendFrame TrendFrameDemo TrendFrameFacts.

(** X12 on an [X] without dates and on one without a frequency. *)
Lemma get_trend_dataframe_checks_witness :
  get_trend_dataframe demo demo_frame undated (TargetSeries two_weeks) fresh
  = (fresh, Raise (TypeError X_type_message))
  ∧ get_trend_dataframe demo demo_frame irregular (TargetSeries two_weeks)
      fresh
    = (fresh, Raise (ValueError X_freq_message))
  ∧ get_trend_dataframe demo demo_frame (daily 14) (TargetOther "list") fresh
    = (fresh, Raise (TypeError y_type_message)).
Proof.
  destruct (get_trend_dataframe_checks demo demo_frame undated
              (TargetSeries two_weeks) fresh) as (H1 & _).
  destruct (get_trend_dataframe_checks demo demo_frame irregular
              (TargetSeries two_weeks) fresh) as (_ & H2 & _).
  destruct (get_trend_dataframe_checks demo demo_frame (daily 14)
              (TargetOther "list") fresh) as (_ & _ & H3 & _).
  split; [|split].
  - exact (H1 undated [0; 1; 2] eq_refl eq_refl).
  - exact (H2 irregular [0; 5; 7] eq_refl eq_refl).
  - exact (H3 (daily 14) "D" _ (daily 14) "list" eq_refl eq_refl eq_refl
             eq_refl).
Defined.

(** X13 on a DataFrame of two columns. *)
Lemma get_trend_dataframe_count_witness :
  ∃ dfs,
    get_trend_dataframe demo demo_frame (daily 14) (TargetFrame two_columns)
      fresh = (fresh, Ok dfs)
    ∧ length dfs = 2%nat.
Proof.
  eexists. split; [vm_compute; reflexivity|].
  exact (get_trend_dataframe_count demo demo_frame (daily 14)
           (TargetFrame two_columns) fresh fresh _
           ltac:(vm_compute; reflexivity)).
Defined.

(** X14 on two weeks of daily data. *)
Lemma get_trend_dataframe_decomposes_witness :
  ∃ t ss r,
    get_trend_dataframe demo demo_frame (daily 14) (TargetSeries two_weeks)
      fresh
    = (fresh, Ok [ {| trend := t; seasonality := ss; residual := r |} ])
    ∧ zip_with Z.add (zip_with Z.add (values r) (values ss)) (values t)
      = values two_weeks.
Proof.
  destruct (get_trend_dataframe_decomposes demo demo_frame (daily 14)
              two_weeks
              {| index := daily 14; values := demo_trend (3, 1) (daily 14) |}
              {| index := daily 14;
                 values := [0; 1; -1; 0; 2; 4; -1; 0; 1; -1; 0; 2; 4; -1] |}
              fresh (daily 14) "D" _ (daily 14) (3, 1)
              eq_refl eq_refl eq_refl eq_refl eq_refl eq_refl eq_refl
              eq_refl eq_refl eq_refl) as [Hrun Hsum].
  do 3 eexists. split; [exact Hrun|].
  apply Hsum. intros a b c. simpl. lia.
Defined.

(** X15 on a fresh decomposer and one fitted on two weeks. *)
Lemma get_trend_dataframe_ignores_the_fit_witness :
  (get_trend_dataframe demo demo_frame (daily 14) (TargetSeries two_weeks)
     fitted_daily).2
  = (get_trend_dataframe demo demo_frame (daily 14) (TargetSeries two_weeks)
       fresh).2.
Proof.
  exact (proj1 (get_trend_dataframe_ignores_the_fit demo demo_frame
                  (daily 14) (TargetSeries two_weeks) fresh fitted_daily
                  eq_refl)).
Defined.

End TrendFrameWitness.

(* ===================================================================== *)
(** * Part VIII: the clustering pipeline, theorems                        *)
(* ===================================================================== *)

Module ClusteringFacts.

Import Clustering.

Section ClusteringFacts.

Context {data target graph names objectives_arg objectives scores : Type}.
Context {callee_exn : Type}.

Local Abbreviation PipelineCallees :=
  (PipelineCallees (data := data) (target := target) (graph := graph)
     (names := names) (objectives_arg := objectives_arg)
     (objectives := objectives) (scores := scores)
     (callee_exn := callee_exn)).
Local Abbreviation ClusterPipeline :=
  (ClusterPipeline (graph := graph) (names := names)).

Implicit Types (P : PipelineCallees) (self : ClusterPipeline) (X : data)
  (y : option target).

(** [self] with another component graph. *)
Definition with_graph (g : graph) self : ClusterPipeline :=
  {| component_graph := g;
     input_target_name := input_target_name self;
     input_feature_names := input_feature_names self |}.

Ltac unfold_method :=
  unfold mbind, mcall, on_graph, set_input_target_name,
    set_input_feature_names, get_graph, get_self, mret in *;
  simpl in *.

(** X16.  What [fit] leaves.  When [infer_feature_types] raises, the
    pipeline is untouched.  Otherwise [input_target_name] is [None],
    whatever [y] is and also when the fit of the component graph raises;
    in that case [input_feature_names] is still the old one, and after a
    fit that returns it is the one of the fitted graph. *)
Theorem cluster_fit_state P X y self :
  (∀ e, infer_feature_types P X = inl e →
        fit P X y self
        = (self, Decomposer.Raise (Decomposer.CalleeError e)))
  ∧ (∀ X' g e,
       infer_feature_types P X = inr X' →
       graph_fit P (component_graph self) X' y = (g, inl e) →
       fit P X y self
       = ({| component_graph := g;
             input_target_name := None;
             input_feature_names := input_feature_names self |},
          Decomposer.Raise (Decomposer.CalleeError e)))
  ∧ (∀ X' g,
       infer_feature_types P X = inr X' →
       graph_fit P (component_graph self) X' y = (g, inr tt) →
       fit P X y self
       = ({| component_graph := g;
             input_target_name := None;
             input_feature_names := graph_input_feature_names P g |},
          Decomposer.Ok tt)).
Proof.
  split; [|split].
  - intros e He. unfold fit. unfold_method. by rewrite He.
  - intros X' g e HX Hg. unfold fit. unfold_method. rewrite HX. simpl.
    by rewrite Hg.
  - intros X' g HX Hg. unfold fit. unfold_method. rewrite HX. simpl.
    by rewrite Hg.
Qed.

(** X17.  [score] resolves the objectives first: when
    [create_objectives] raises, nothing is predicted and the pipeline,
    its component graph included, is untouched.  Otherwise it scores the
    predictions of [predict], which carry the name ["Clusters"] whatever
    name the component graph gave them, on the [X] it was given (not the
    one [predict] has inferred), with no probabilities; of the pipeline
    only the component graph may have changed. *)
Theorem cluster_score_order P X y (objs : objectives_arg) self :
  (∀ e, create_objectives P objs = inl e →
        score P X y objs self
        = (self, Decomposer.Raise (Decomposer.CalleeError e)))
  ∧ (∀ os X' g p p',
       create_objectives P objs = inr os →
       infer_feature_types P X = inr X' →
       graph_predict P (component_graph self) X' = (g, inr p) →
       infer_predictions P {| name := Some "Clusters"; labels := labels p |}
       = inr p' →
       predict P X self = (with_graph g self, Decomposer.Ok p')
       ∧ score P X y objs self
         = (with_graph g self,
            match _score_all_objectives P (with_graph g self) X y p' None os
            with
            | inr s => Decomposer.Ok s
            | inl e => Decomposer.Raise (Decomposer.CalleeError e)
            end)).
Proof.
  split.
  - intros e He. unfold score. unfold_method. by rewrite He.
  - intros os X' g p p' Hos HX Hg Hp.
    assert (predict P X self = (with_graph g self, Decomposer.Ok p')) as Hpred.
    { unfold predict. unfold_method. rewrite HX. simpl. rewrite Hg. simpl.
      by rewrite Hp. }
    split; [exact Hpred|].
    unfold score. unfold mbind at 1. unfold mcall at 1. rewrite Hos.
    unfold mbind at 1. rewrite Hpred. unfold_method.
    by destruct (_score_all_objectives P _ X y p' None os).
Qed.

End ClusteringFacts.

Import ClusteringDemo.

(** X16 on a fit that returns and on one whose graph raises. *)
Lemma cluster_fit_state_witness :
  fit demo_pipeline [1; 2] (Some tt) unfitted
  = ({| component_graph := 1%nat;
        input_target_name := None;
        input_feature_names := ["x"] |}, Decomposer.Ok tt)
  ∧ fit demo_pipeline [] (Some tt) unfitted
    = ({| component_graph := 0%nat;
          input_target_name := None;
          input_feature_names := [] |},
       Decomposer.Raise (Decomposer.CalleeError "no rows")).
Proof.
  destruct (cluster_fit_state demo_pipeline [1; 2] (Some tt) unfitted)
    as (_ & _ & H1).
  destruct (cluster_fit_state demo_pipeline [] (Some tt) unfitted)
    as (_ & H2 & _).
  split.
  - exact (H1 [1; 2] 1%nat eq_refl eq_refl).
  - exact (H2 [] 0%nat "no rows" eq_refl eq_refl).
Defined.

(** X17 on two objectives and on none. *)
Lemma cluster_score_order_witness :
  score demo_pipeline [1; 2] None [] unfitted
  = (unfitted, Decomposer.Raise (Decomposer.CalleeError "no objectives"))
  ∧ predict demo_pipeline [1; 2] unfitted
    = (unfitted,
       Decomposer.Ok {| name := Some "Clusters"; labels := [1; 2] |})
  ∧ score demo_pipeline [1; 2] None ["a"; "b"] unfitted
    = (unfitted, Decomposer.Ok 2%nat).
Proof.
  destruct (cluster_score_order demo_pipeline [1; 2] None [] unfitted)
    as (H1 & _).
  destruct (cluster_score_order demo_pipeline [1; 2] None ["a"; "b"] unfitted)
    as (_ & H2).
  destruct (H2 ["a"; "b"] [1; 2] 0%nat
              {| name := Some "kmeans"; labels := [1; 2] |}
              {| name := Some "Clusters"; labels := [1; 2] |}
              eq_refl eq_refl eq_refl eq_refl) as [Hp Hs].
  split; [exact (H1 "no objectives" eq_refl)|].
  split; [exact Hp|exact Hs].
Defined.

End ClusteringFacts.
